(** * The offline-resilience service worker ([src/pwa/sw.js]) in Rocq

    A shallow embedding of the request strategies, the background sync of
    queued form submissions, the install listener and the periodic cache
    cleanup, with the properties the specification states about them.

    Conventions of the embedding.
    - The browser's stores are the state of a [World]: the [CacheStorage]
      (namespace name to cache, a cache being a map from request URL to
      response), the IndexedDB database [SHFormDB], the log of [fetch]
      calls, the notifications shown and the [skipWaiting] flag.
    - A key of a cache is the string the source hands to the Cache API.
      The browser resolves it against the URL of the worker, so a key
      stands for the absolute URL it resolves to, also where
      [getCacheInfo] lists the keys; two lookups under the same string
      find the same entry.  The requests are [GET] requests of [http(s)]
      URLs, the ones the router passes to a strategy; the matching of a
      stored response's [Vary] header against the headers of a later
      request is not part of the embedding.
    - An [async] function is a computation in the state monad [M]; an
      [await] is a bind.  The operations of the Cache API return promises;
      [cache.put] rejects, and stores nothing, for a response of status 206
      or with a [Vary: *] header, and a [cache.put] the source does not
      await is applied at once, its rejection lost.  The operations of an
      IndexedDB object store return a request object, which is no promise:
      an [await] on it hands back the request itself, without waiting for
      its outcome.  Opening a cache or the database does not fail.
    - A [fetch] either resolves with a response (whatever its status) or
      rejects (a transport failure).  The network is an oracle indexed by
      the number of calls made so far.
    - Clock readings ([Date.now()]) and random suffixes are inputs.
    - [JSON.stringify], the parsing of a date string and the text of the
      inline offline page are parameters of the development. *)

From Stdlib Require Import ZArith Lia OrdersEx Ascii.
From stdpp Require Import base option list strings pretty gmap fin_maps.

Local Open Scope string_scope.
Local Open Scope Z_scope.
Local Set Warnings "-register-all".

(** ** Values *)

(** A JavaScript value that [JSON.stringify] turns into text; [undefined]
    is not among them. *)
Inductive Json : Type :=
  | JNull
  | JBool (b : bool)
  | JNumber (n : Z)
  | JString (s : string)
  | JArray (items : list Json)
  | JObject (fields : list (string * Json)).

(** Header names are kept in lower case, as [Headers] normalises them. *)
Definition Headers : Type := list (string * string).

(** [headers.get(name)]: [None] is JavaScript's [null]. *)
Fixpoint headers_get (name : string) (h : Headers) : option string :=
  match h with
  | [] => None
  | (n, v) :: rest => if String.eqb n name then Some v else headers_get name rest
  end.

Record Response : Type := mkResponse {
  status : Z;
  statusText : string;
  headers : Headers;
  body : string
}.

(** [response.ok]: the status is in the range 200-299. *)
Definition ok (r : Response) : bool :=
  (200 <=? status r) && (status r <=? 299).

(** The [init] argument of [new Response(body, init)]. *)
Record ResponseInit : Type := mkInit {
  init_status : option Z;
  init_statusText : option string;
  init_headers : Headers
}.

Definition no_init : ResponseInit :=
  {| init_status := None; init_statusText := None; init_headers := [] |}.

(** [new Response(body, init)] with a string body: status 200 and an empty
    status text unless given, and a [content-type] of plain text unless the
    headers of [init] carry one. *)
Definition new_Response (b : string) (init : ResponseInit) : Response :=
  {| status := default 200 (init_status init);
     statusText := default "" (init_statusText init);
     headers :=
       match headers_get "content-type" (init_headers init) with
       | Some _ => init_headers init
       | None => (init_headers init ++ [("content-type", "text/plain;charset=UTF-8")])%list
       end;
     body := b |}.

Record Request : Type := mkRequest {
  url : string;
  method : string;
  destination : string;
  req_headers : Headers;
  req_body : option string
}.

(** The outcome of a [fetch]: the promise resolves with a response or
    rejects. *)
Inductive FetchResult : Type :=
  | Resolves (r : Response)
  | Rejects.

(** What an [async] function can hand back where the source mixes
    responses, promises and [undefined]. *)
Inductive JsValue : Type :=
  | JsUndefined
  | JsResponse (r : Response)
  | JsPromise (settles_to : option Response).

(** Truthiness: [undefined] is falsy, every object is truthy, a promise
    included, whatever it settles to. *)
Definition truthy (v : JsValue) : bool :=
  match v with
  | JsUndefined => false
  | JsResponse _ => true
  | JsPromise _ => true
  end.

(** [a || b]. *)
Definition js_or (a b : JsValue) : JsValue := if truthy a then a else b.

(** The value an [async] function's promise settles to when the function
    returns [v]: a returned promise is adopted. *)
Definition resolve (v : JsValue) : JsValue :=
  match v with
  | JsPromise (Some r) => JsResponse r
  | JsPromise None => JsUndefined
  | _ => v
  end.

(** A non-empty string is truthy. *)
Definition truthy_string (s : string) : bool :=
  match s with
  | EmptyString => false
  | String _ _ => true
  end.

(** ** The stores *)

Abbreviation Cache := (gmap string Response).
Abbreviation CacheStorage := (gmap string (gmap string Response)).

(** A record of the object store [pending-forms]. *)
Record FormRecord : Type := mkForm {
  id : string;
  data : Json;
  timestamp : Z;
  form_status : string
}.

(** A record of the object store [completed-forms] (key path [id], indices
    on [timestamp] and [formType]). *)
Record CompletedForm : Type := mkCompleted {
  c_id : string;
  c_data : Json;
  c_timestamp : Z;
  formType : string
}.

(** The database [SHFormDB]: each object store holds its records in
    ascending order of the primary key [id]. *)
Record Database : Type := mkDB {
  pending_forms : list FormRecord;
  completed_forms : list CompletedForm
}.

Record Notification : Type := mkNotification {
  title : string;
  n_body : string;
  icon : string;
  badge : string;
  tag : string;
  vibrate : list Z
}.

Record World : Type := mkWorld {
  caches : gmap string (gmap string Response);
  indexedDB : option Database;
  fetch_log : list Request;
  notifications : list Notification;
  skip_waiting : bool
}.

Definition set_caches (cs : gmap string (gmap string Response)) (w : World) : World :=
  {| caches := cs; indexedDB := indexedDB w; fetch_log := fetch_log w;
     notifications := notifications w; skip_waiting := skip_waiting w |}.

Definition set_indexedDB (d : option Database) (w : World) : World :=
  {| caches := caches w; indexedDB := d; fetch_log := fetch_log w;
     notifications := notifications w; skip_waiting := skip_waiting w |}.

Definition set_fetch_log (l : list Request) (w : World) : World :=
  {| caches := caches w; indexedDB := indexedDB w; fetch_log := l;
     notifications := notifications w; skip_waiting := skip_waiting w |}.

Definition set_notifications (l : list Notification) (w : World) : World :=
  {| caches := caches w; indexedDB := indexedDB w; fetch_log := fetch_log w;
     notifications := l; skip_waiting := skip_waiting w |}.

Definition set_skip_waiting (b : bool) (w : World) : World :=
  {| caches := caches w; indexedDB := indexedDB w; fetch_log := fetch_log w;
     notifications := notifications w; skip_waiting := b |}.

(** ** The monad of [async] functions *)

Definition M (A : Type) : Type := World -> A * World.

Definition ret {A : Type} (a : A) : M A := fun w => (a, w).

Definition bind {A B : Type} (m : M A) (k : A -> M B) : M B :=
  fun w => let (a, w') := m w in k a w'.

Declare Scope sw_scope.
Delimit Scope sw_scope with sw.
Notation "x <- m ;; k" := (bind m (fun x => k))
  (at level 100, m at next level, right associativity) : sw_scope.
Notation "m ;;; k" := (bind m (fun _ => k))
  (at level 100, right associativity) : sw_scope.
Local Open Scope sw_scope.

(** The state after running [m], and its result. *)
Definition exec {A : Type} (m : M A) (w : World) : World := snd (m w).
Definition eval {A : Type} (m : M A) (w : World) : A := fst (m w).

(** A promise that has settled. *)
Inductive Settled (A : Type) : Type :=
  | Fulfilled (a : A)
  | Rejected.
Arguments Fulfilled {A} a.
Arguments Rejected {A}.

(** A promise nobody awaits: its outcome is lost. *)
Definition unawaited {A : Type} (m : M (Settled A)) : M unit :=
  fun w => (tt, snd (m w)).

(** ** The Cache API *)

(** The field values of a header: the parts between the commas, without
    the blanks around them. *)
Definition is_blank (c : Ascii.ascii) : bool :=
  Ascii.eqb c " "%char || Ascii.eqb c (Ascii.ascii_of_nat 9).

Fixpoint split_commas (s : string) : list string :=
  match s with
  | EmptyString => [EmptyString]
  | String c rest =>
      if Ascii.eqb c ","%char then EmptyString :: split_commas rest
      else match split_commas rest with
           | [] => [String c EmptyString]
           | field :: fields => String c field :: fields
           end
  end.

Fixpoint trim_left (s : string) : string :=
  match s with
  | EmptyString => EmptyString
  | String c rest => if is_blank c then trim_left rest else s
  end.

Fixpoint trim_right (s : string) : string :=
  match s with
  | EmptyString => EmptyString
  | String c rest =>
      match trim_right rest with
      | EmptyString => if is_blank c then EmptyString else String c EmptyString
      | kept => String c kept
      end
  end.

(** Whether a field value of the [Vary] header of the response is [*]. *)
Definition vary_star (r : Response) : bool :=
  match headers_get "vary" (headers r) with
  | Some v =>
      existsb (fun field => String.eqb (trim_right (trim_left field)) "*") (split_commas v)
  | None => false
  end.

(** What [cache.put] takes: not a partial response (status 206), and no
    response that varies on everything. *)
Definition cache_accepts (r : Response) : bool :=
  negb (status r =? 206) && negb (vary_star r).

(** [caches.open(name)]: the namespace is created when it does not exist;
    the handle is its name. *)
Definition caches_open (name : string) : M string :=
  fun w =>
    match caches w !! name with
    | Some _ => (name, w)
    | None => (name, set_caches (<[name := ∅]> (caches w)) w)
    end.

Definition the_cache (name : string) (w : World) : gmap string Response :=
  default ∅ (caches w !! name).

(** [cache.match(key)]: [None] is [undefined]. *)
Definition cache_match (cache key : string) : M (option Response) :=
  fun w => (the_cache cache w !! key, w).

(** [cache.put(key, response)]: the promise rejects, and nothing is
    stored, when the Cache API does not take the response. *)
Definition cache_put (cache key : string) (r : Response) : M (Settled unit) :=
  fun w =>
    if cache_accepts r
    then (Fulfilled tt,
          set_caches (<[cache := <[key := r]> (the_cache cache w)]> (caches w)) w)
    else (Rejected, w).

(** [cache.delete(key)]. *)
Definition cache_delete (cache key : string) : M unit :=
  fun w => (tt, set_caches (<[cache := delete key (the_cache cache w)]> (caches w)) w).

(** [cache.keys()]. *)
Definition cache_keys (cache : string) : M (list string) :=
  fun w => ((map_to_list (the_cache cache w)).*1, w).

(** ** Constants of the source *)

Definition CACHE_NAME : string := "sh-formu-pwa-v2.0.0".
Definition OFFLINE_URL : string := "/offline.html".
Definition CORE_CACHE_FILES : list string :=
  ["/"; "/index.html"; "/manifest.json"; "/offline.html"].
Definition DATA_CACHE_NAME : string := "sh-formu-data-v1".

(** [s.includes(needle)]. *)
Fixpoint includes (needle s : string) : bool :=
  String.prefix needle s ||
  match s with
  | EmptyString => false
  | String _ rest => includes needle rest
  end.

(** [p.then(f)] and [p.catch(h)]: a handler that returns normally fulfils
    the chain. *)
Definition promise_then {A B : Type} (p : M (Settled A)) (f : A -> M (Settled B))
  : M (Settled B) :=
  r <- p ;;
  match r with
  | Fulfilled a => f a
  | Rejected => ret Rejected
  end.

Definition promise_catch {A : Type} (p : M (Settled A)) (h : M A) : M (Settled A) :=
  r <- p ;;
  match r with
  | Fulfilled a => ret (Fulfilled a)
  | Rejected => a <- h ;; ret (Fulfilled a)
  end.

(** [for (const x of l) body(x)]. *)
Fixpoint for_of {A : Type} (l : list A) (body : A -> M unit) : M unit :=
  match l with
  | [] => ret tt
  | x :: rest => body x ;;; for_of rest body
  end.

(** A [for ... of] inside a [try]: the body answers [false] when it throws,
    which leaves the loop. *)
Fixpoint for_of_try {A : Type} (l : list A) (body : A -> M bool) : M bool :=
  match l with
  | [] => ret true
  | x :: rest =>
      completed <- body x ;;
      if completed then for_of_try rest body else ret false
  end.

(** [self.skipWaiting()]. *)
Definition skipWaiting : M unit := fun w => (tt, set_skip_waiting true w).

(** [self.registration.showNotification(title, options)]. *)
Definition showNotification (n : Notification) : M unit :=
  fun w => (tt, set_notifications (notifications w ++ [n])%list w).

(** ** IndexedDB *)

(** [openDB()]: opening version 1 of [SHFormDB] creates the two object
    stores, empty, when the database does not exist yet. *)
Definition openDB : M unit :=
  fun w =>
    match indexedDB w with
    | Some _ => (tt, w)
    | None =>
        (tt, set_indexedDB (Some {| pending_forms := []; completed_forms := [] |}) w)
    end.

Definition the_db (w : World) : Database :=
  default {| pending_forms := []; completed_forms := [] |} (indexedDB w).

Definition set_pending (l : list FormRecord) (w : World) : World :=
  set_indexedDB (Some {| pending_forms := l; completed_forms := completed_forms (the_db w) |}) w.

(** What an operation of an object store returns: the request, whose
    outcome, a result or an error, comes with a later event. *)
Inductive IDBRequest (A : Type) : Type :=
  | IDBRequest_for (outcome : Settled A).
Arguments IDBRequest_for {A} outcome.

(** [await request]: a request has no [then], so the value of the
    [await] is the request itself, at once. *)
Definition await_request {A : Type} (request : IDBRequest A) : M (IDBRequest A) :=
  ret request.

(** What [for ... of] is given, and the iterator it asks for: an array has
    one, a request has none, and the loop throws a [TypeError]. *)
Inductive ForOfOperand (A : Type) : Type :=
  | AnArray (elements : list A)
  | ARequest (request : IDBRequest (list A)).
Arguments AnArray {A} elements.
Arguments ARequest {A} request.

Definition iterator {A : Type} (operand : ForOfOperand A) : option (list A) :=
  match operand with
  | AnArray elements => Some elements
  | ARequest _ => None
  end.

(** [store.getAll()] on [pending-forms]: the request for the records in
    key order. *)
Definition pending_getAll : M (IDBRequest (list FormRecord)) :=
  fun w => (IDBRequest_for (Fulfilled (pending_forms (the_db w))), w).

(** [store.delete(key)] on [pending-forms]: a key that is not there is not
    an error. *)
Definition pending_delete (key : string) : M unit :=
  fun w =>
    (tt, set_pending (filter (fun f => id f ≠ key) (pending_forms (the_db w))) w).

(** Insertion at the place the key order gives. *)
Fixpoint insert_by_id (r : FormRecord) (l : list FormRecord) : list FormRecord :=
  match l with
  | [] => [r]
  | x :: rest => if String.ltb (id r) (id x) then r :: l else x :: insert_by_id r rest
  end.

(** [store.add(record)] on [pending-forms]: the request fails, and the
    store stays as it is, when the key is already there. *)
Definition pending_add (r : FormRecord) : M (IDBRequest unit) :=
  fun w =>
    if existsb (fun f => String.eqb (id f) (id r)) (pending_forms (the_db w))
    then (IDBRequest_for Rejected, w)
    else (IDBRequest_for (Fulfilled tt),
          set_pending (insert_by_id r (pending_forms (the_db w))) w).

(** The records of an object store are in strictly ascending key order. *)
Fixpoint key_ordered (l : list FormRecord) : bool :=
  match l with
  | [] => true
  | x :: rest =>
      forallb (fun y => String.ltb (id x) (id y)) rest && key_ordered rest
  end.

(** ** The service worker *)

Section ServiceWorker.

(** [JSON.stringify]. *)
Variable JSON_stringify : Json -> string.

(** [new Date(s).getTime()] in milliseconds; [None] is [NaN]. *)
Variable Date_parse : string -> option Z.

(** The text [getOfflineHTML()] returns: the inline offline page. *)
Variable getOfflineHTML : string.

(** The network: what the [n]-th [fetch] of the run answers. *)
Variable network : nat -> Request -> FetchResult.

(** [fetch(request)]. *)
Definition fetch (request : Request) : M FetchResult :=
  fun w =>
    (network (length (fetch_log w)) request,
     set_fetch_log (fetch_log w ++ [request])%list w).

(** *** Request strategies *)

(** The body of the [catch] of [networkFirstStrategy]. *)
Definition offline_response : Response :=
  new_Response
    (JSON_stringify
       (JObject [("error", JString "Offline");
                 ("message", JString "Bu işlem için internet bağlantısı gereklidir.")]))
    {| init_status := Some 503;
       init_statusText := Some "Service Unavailable";
       init_headers := [("content-type", "application/json")] |}.

Definition networkFirstStrategy (request : Request) : M Response :=
  cache <- caches_open DATA_CACHE_NAME ;;
  attempt <- fetch request ;;
  match attempt with
  | Resolves networkResponse =>
      (if ok networkResponse
       then unawaited (cache_put cache (url request) networkResponse)
       else ret tt) ;;;
      ret networkResponse
  | Rejects =>
      cachedResponse <- cache_match cache (url request) ;;
      match cachedResponse with
      | Some r => ret r
      | None => ret offline_response
      end
  end.

(** The [catch] of [documentStrategy]. Its last [return] hands back
    [cache.match(OFFLINE_URL) || new Response(...)], where the left
    operand is the promise [cache.match] returns. *)
Definition documentStrategy_catch (cache : string) (request : Request) : M JsValue :=
  cachedResponse <- cache_match cache (url request) ;;
  match cachedResponse with
  | Some r => ret (JsResponse r)
  | None =>
      offline <- cache_match cache OFFLINE_URL ;;
      ret (resolve
             (js_or (JsPromise offline)
                    (JsResponse
                       (new_Response getOfflineHTML
                          {| init_status := None;
                             init_statusText := None;
                             init_headers := [("content-type", "text/html")] |}))))
  end.

Definition documentStrategy (request : Request) : M JsValue :=
  cache <- caches_open CACHE_NAME ;;
  attempt <- fetch request ;;
  match attempt with
  | Resolves networkResponse =>
      if ok networkResponse
      then unawaited (cache_put cache (url request) networkResponse) ;;;
           ret (JsResponse networkResponse)
      else documentStrategy_catch cache request
  | Rejects => documentStrategy_catch cache request
  end.

Definition cacheFirstStrategy (request : Request) : M Response :=
  cache <- caches_open CACHE_NAME ;;
  cachedResponse <- cache_match cache (url request) ;;
  match cachedResponse with
  | Some r => ret r
  | None =>
      attempt <- fetch request ;;
      match attempt with
      | Resolves networkResponse =>
          (if ok networkResponse
           then unawaited (cache_put cache (url request) networkResponse)
           else ret tt) ;;;
          ret networkResponse
      | Rejects =>
          ret (new_Response ""
                 {| init_status := Some 404;
                    init_statusText := Some "Not Found";
                    init_headers := [] |})
      end
  end.

(** The [fetch] listener: [None] when the listener returns without
    [respondWith], otherwise the value the strategy settles to. *)
Definition fetch_listener (request : Request) : M (option JsValue) :=
  if negb (String.eqb (method request) "GET") then ret None
  else if includes "/api/" (url request) || includes "form-data" (url request)
  then r <- networkFirstStrategy request ;; ret (Some (JsResponse r))
  else if String.eqb (destination request) "document"
  then v <- documentStrategy request ;; ret (Some v)
  else r <- cacheFirstStrategy request ;; ret (Some (JsResponse r)).

(** *** The command [CACHE_FORM_DATA] *)

Definition cacheFormData (formData : Json) (now : Z) (random : string) : M unit :=
  cache <- caches_open DATA_CACHE_NAME ;;
  let response := new_Response (JSON_stringify formData) no_init in
  let key := "form-" +:+ pretty now +:+ "-" +:+ random in
  stored <- cache_put cache key response ;;
  match stored with
  | Fulfilled _ => ret tt
  | Rejected => ret tt
  end.

(** *** Install *)

(** A [GET] of a URL, as [cache.addAll] issues it. *)
Definition get_request (u : string) : Request :=
  {| url := u; method := "GET"; destination := ""; req_headers := []; req_body := None |}.

Fixpoint fetch_all (urls : list string) : M (list FetchResult) :=
  match urls with
  | [] => ret []
  | u :: rest =>
      r <- fetch (get_request u) ;;
      rs <- fetch_all rest ;;
      ret (r :: rs)
  end.

Definition fetched_ok (r : FetchResult) : bool :=
  match r with
  | Resolves r => ok r
  | Rejects => false
  end.

(** An answer [cache.addAll] can store: 2xx, and taken by the Cache API. *)
Definition fetched_storable (r : FetchResult) : bool :=
  match r with
  | Resolves r => ok r && cache_accepts r
  | Rejects => false
  end.

Fixpoint put_all (cache : string) (entries : list (string * FetchResult)) : M unit :=
  match entries with
  | [] => ret tt
  | (u, Resolves r) :: rest => unawaited (cache_put cache u r) ;;; put_all cache rest
  | (_, Rejects) :: rest => put_all cache rest
  end.

(** [cache.addAll(urls)]: every URL is fetched; the promise rejects, and
    nothing is stored, unless every fetch resolves with an [ok] response
    that the Cache API takes. *)
Definition cache_addAll (cache : string) (urls : list string) : M (Settled unit) :=
  results <- fetch_all urls ;;
  if forallb fetched_storable results
  then put_all cache (zip urls results) ;;; ret (Fulfilled tt)
  else ret Rejected.

(** The promise the [install] listener hands to [event.waitUntil]. *)
Definition install_listener : M (Settled unit) :=
  promise_catch
    (promise_then
       (promise_then
          (cache <- caches_open CACHE_NAME ;; ret (Fulfilled cache))
          (fun cache => cache_addAll cache CORE_CACHE_FILES))
       (fun _ => skipWaiting ;;; ret (Fulfilled tt)))
    (ret tt).

(** *** Background sync *)

Definition submit_request (formData : FormRecord) : Request :=
  {| url := "/api/submit-form";
     method := "POST";
     destination := "";
     req_headers := [("content-type", "application/json")];
     req_body := Some (JSON_stringify (data formData)) |}.

Definition sync_notification : Notification :=
  {| title := "Form Gönderildi";
     n_body := "Kaydedilen formunuz başarıyla gönderildi.";
     icon := "/icon-192.png";
     badge := "/badge-72.png";
     tag := "form-sync-success";
     vibrate := [200; 100; 200] |}.

(** What the loop of [syncFormSubmissions] does once the server has
    acknowledged a record; the specification names it [markSynced]. *)
Definition markSynced (formData : FormRecord) : M unit :=
  pending_delete (id formData) ;;; showNotification sync_notification.

(** One turn of the loop of [syncFormSubmissions], with its own
    [try]/[catch]. *)
Definition sync_one (formData : FormRecord) : M unit :=
  attempt <- fetch (submit_request formData) ;;
  match attempt with
  | Resolves response =>
      if ok response then markSynced formData else ret tt
  | Rejects => ret tt
  end.

(** [syncFormSubmissions()]: [pendingForms] is what the [await] of
    [store.getAll()] gives, the request; the loop over it throws, and the
    outer [catch] takes the error. *)
Definition syncFormSubmissions : M unit :=
  openDB ;;;
  pendingForms <- (request <- pending_getAll ;; await_request request) ;;
  match iterator (ARequest pendingForms) with
  | Some records => for_of records sync_one
  | None => ret tt
  end.

(** [storeFormOffline(formData)]: the two clock readings and the random
    suffix are inputs, and so is the outcome of the block that registers
    the background sync, which acts on the registration of the worker, not
    on a [World]. The [await] of [store.add] does not wait for the request.
    The promise is fulfilled with the id, or rejected when the registration
    throws and the [catch] throws the error again. *)
Definition storeFormOffline (formData : Json) (now_id : Z) (random : string) (now_ts : Z)
    (registration : Settled unit) : M (Settled string) :=
  openDB ;;;
  let data :=
    {| id := "form-" +:+ pretty now_id +:+ "-" +:+ random;
       data := formData;
       timestamp := now_ts;
       form_status := "pending" |} in
  request <- pending_add data ;;
  await_request request ;;;
  match registration with
  | Fulfilled _ => ret (Fulfilled (id data))
  | Rejected => ret Rejected
  end.

(** *** Periodic cleanup *)

Definition maxAge : Z := 7 * 24 * 60 * 60 * 1000.

(** One turn of the loop of [cleanupOldCache]; [false] when reading the
    headers of a missing response throws. *)
Definition cleanup_one (cache : string) (now : Z) (request : string) : M bool :=
  response <- cache_match cache request ;;
  match response with
  | None => ret false
  | Some response =>
      match headers_get "date" (headers response) with
      | Some dateHeader =>
          if truthy_string dateHeader
          then match Date_parse dateHeader with
               | Some cacheDate =>
                   if now - cacheDate >? maxAge
                   then cache_delete cache request ;;; ret true
                   else ret true
               | None => ret true
               end
          else ret true
      | None => ret true
      end
  end.

Definition cleanupOldCache (now : Z) : M bool :=
  cache <- caches_open DATA_CACHE_NAME ;;
  requests <- cache_keys cache ;;
  for_of_try requests (cleanup_one cache now).

End ServiceWorker.

(** The state the platform puts the new worker in once the promise of the
    [install] listener has settled: a rejection discards the worker;
    otherwise it is installed, and activated at once when [skipWaiting] was
    called, else it waits for the old version to let go of its clients. *)
Inductive WorkerState : Type :=
  | Installed_waiting
  | Activating
  | Redundant.

Definition install_event (network : nat -> Request -> FetchResult) (w : World)
  : WorkerState * World :=
  let (settled, w') := install_listener network w in
  match settled with
  | Rejected => (Redundant, w')
  | Fulfilled _ => (if skip_waiting w' then Activating else Installed_waiting, w')
  end.

(** The operations that write a response into a cache namespace. *)
Inductive CacheWriter : Type :=
  | NetworkFirst (request : Request)
  | DocumentWithFallback (request : Request)
  | CacheFirst (request : Request)
  | CACHE_FORM_DATA (payload : Json) (now : Z) (random : string).

Definition run_writer (JSON_stringify : Json -> string) (getOfflineHTML : string)
    (network : nat -> Request -> FetchResult) (op : CacheWriter) : M unit :=
  match op with
  | NetworkFirst request => networkFirstStrategy JSON_stringify network request ;;; ret tt
  | DocumentWithFallback request => documentStrategy getOfflineHTML network request ;;; ret tt
  | CacheFirst request => cacheFirstStrategy network request ;;; ret tt
  | CACHE_FORM_DATA payload now random => cacheFormData JSON_stringify payload now random
  end.

(** Whether [cleanup_one] finds the response older than the retention
    window: the test its nested conditions amount to. *)
Definition expired (Date_parse : string -> option Z) (now : Z) (r : Response) : bool :=
  match headers_get "date" (headers r) with
  | Some dateHeader =>
      truthy_string dateHeader &&
      match Date_parse dateHeader with
      | Some cacheDate => now - cacheDate >? maxAge
      | None => false
      end
  | None => false
  end.

(** The records of [pending-forms] in a world. *)
Definition pending (w : World) : list FormRecord := pending_forms (the_db w).


(** The capture time [cleanup_one] reads off a stored response: the parsed
    [date] header, when the header is there, is not empty and parses. *)
Definition capture_timestamp (Date_parse : string -> option Z) (r : Response) : option Z :=
  match headers_get "date" (headers r) with
  | Some dateHeader => if truthy_string dateHeader then Date_parse dateHeader else None
  | None => None
  end.

(** Cleanup passes run one after the other, at the given times. *)
Fixpoint cleanup_passes (Date_parse : string -> option Z) (times : list Z) : M unit :=
  match times with
  | [] => ret tt
  | now :: rest => cleanupOldCache Date_parse now ;;; cleanup_passes Date_parse rest
  end.


(** ** Sample inputs *)

Module Sample.

Definition stringify (j : Json) : string :=
  match j with
  | JString s => s
  | _ => "{}"
  end.

(** A toy date parser for the examples: two named instants. *)
Definition date_parse (s : string) : option Z :=
  match s with
  | "t0" => Some 0
  | "t1" => Some 86400000
  | _ => None
  end.

Definition offline_html : string := "<!DOCTYPE html>".

Definition response (st : Z) (b : string) : Response :=
  new_Response b {| init_status := Some st; init_statusText := None; init_headers := [] |}.

Definition net_down : nat -> Request -> FetchResult := fun _ _ => Rejects.
Definition net_ok : nat -> Request -> FetchResult := fun _ _ => Resolves (response 200 "ok").
Definition net_500 : nat -> Request -> FetchResult := fun _ _ => Resolves (response 500 "oops").

(** A server that answers with a part of the resource, as to a range
    request. *)
Definition net_206 : nat -> Request -> FetchResult := fun _ _ => Resolves (response 206 "part").

Definition empty_world : World :=
  {| caches := ∅; indexedDB := None; fetch_log := []; notifications := [];
     skip_waiting := false |}.

Definition navigation (u : string) : Request :=
  {| url := u; method := "GET"; destination := "document"; req_headers := [];
     req_body := None |}.

Definition asset (u : string) : Request :=
  {| url := u; method := "GET"; destination := "script"; req_headers := [];
     req_body := None |}.

(** The request of a media element for a range of a file. *)
Definition ranged (u : string) : Request :=
  {| url := u; method := "GET"; destination := "video";
     req_headers := [("range", "bytes=0-")]; req_body := None |}.

Definition dated (d : string) (b : string) : Response :=
  new_Response b
    {| init_status := None; init_statusText := None; init_headers := [("date", d)] |}.

(** A data namespace with two dated entries. *)
Definition data_world : World :=
  {| caches :=
       {[ DATA_CACHE_NAME :=
            <["/api/forms" := dated "t0" "[]"]> {[ "/api/visits" := dated "t1" "[]" ]} ]};
     indexedDB := None; fetch_log := []; notifications := [];
     skip_waiting := false |}.

(** A core namespace that holds one asset. *)
Definition warm_world : World :=
  {| caches := {[ CACHE_NAME := {[ "/app.js" := response 200 "js" ]} ]};
     indexedDB := None; fetch_log := []; notifications := [];
     skip_waiting := false |}.

(** One submission stored offline. *)
Definition queued_world : World :=
  exec (storeFormOffline (JString "visit") 1000 "k3x9" 1000 (Fulfilled tt)) empty_world.

(** Two submissions stored offline within the same millisecond of the
    id's clock reading: [A] first, then [B], whose timestamp is read one
    millisecond later and whose random suffix sorts first. *)
Definition record_A : FormRecord :=
  {| id := "form-1000-zzz"; data := JString "A"; timestamp := 1000;
     form_status := "pending" |}.
Definition record_B : FormRecord :=
  {| id := "form-1000-aaa"; data := JString "B"; timestamp := 1001;
     form_status := "pending" |}.
Definition two_queued_world : World :=
  exec (storeFormOffline (JString "B") 1000 "aaa" 1001 (Fulfilled tt))
    (exec (storeFormOffline (JString "A") 1000 "zzz" 1000 (Fulfilled tt)) empty_world).

(** A network that rejects the first call and acknowledges the next. *)
Definition net_first_fails : nat -> Request -> FetchResult :=
  fun n _ => match n with O => Rejects | _ => Resolves (response 200 "ok") end.

End Sample.

(** ** The remaining listeners and commands *)

(** [caches.keys()]: the names of the namespaces. *)
Definition caches_keys : M (list string) :=
  fun w => ((map_to_list (caches w)).*1, w).

(** [caches.delete(name)]: answers whether the namespace was there. *)
Definition caches_delete (name : string) : M bool :=
  fun w =>
    (bool_decide (is_Some (caches w !! name)),
     set_caches (delete name (caches w)) w).

(** The [activate] listener: every namespace that is neither the core
    nor the data namespace is deleted. [clients.claim()] acts on the
    clients, which a [World] does not hold. *)
Definition activate_listener : M unit :=
  cacheNames <- caches_keys ;;
  for_of cacheNames (fun cacheName =>
    if negb (String.eqb cacheName CACHE_NAME) &&
       negb (String.eqb cacheName DATA_CACHE_NAME)
    then caches_delete cacheName ;;; ret tt
    else ret tt).

(** [clearAllCaches()]. *)
Definition clearAllCaches : M unit :=
  cacheNames <- caches_keys ;;
  for_of cacheNames (fun cacheName => caches_delete cacheName ;;; ret tt).

(** One element of [info.caches]: the fields [name], [size], [items]. *)
Record CacheDetails : Type := mkDetails {
  cache_name : string;
  cache_size : nat;
  items : list string
}.

Record CacheInfo : Type := mkInfo {
  totalCaches : nat;
  info_caches : list CacheDetails
}.

(** The loop of [getCacheInfo]. *)
Fixpoint getCacheInfo_loop (cacheNames : list string) : M (list CacheDetails) :=
  match cacheNames with
  | [] => ret []
  | cacheName :: rest =>
      cache <- caches_open cacheName ;;
      keys <- cache_keys cache ;;
      more <- getCacheInfo_loop rest ;;
      ret ({| cache_name := cacheName; cache_size := length keys; items := keys |} :: more)
  end.

(** [getCacheInfo()]. *)
Definition getCacheInfo : M CacheInfo :=
  cacheNames <- caches_keys ;;
  details <- getCacheInfo_loop cacheNames ;;
  ret {| totalCaches := length cacheNames; info_caches := details |}.

(** What a command posts on the reply port. *)
Inductive Reply : Type :=
  | ReplyCacheInfo (info : CacheInfo)
  | ReplySuccess.

(** The [message] listener: the [switch] on [type]; the clock reading and
    the random suffix [cacheFormData] takes are inputs. *)
Definition message_listener (JSON_stringify : Json -> string)
    (type : string) (payload : Json) (now : Z) (random : string) : M (option Reply) :=
  if String.eqb type "SKIP_WAITING" then skipWaiting ;;; ret None
  else if String.eqb type "CACHE_FORM_DATA"
  then cacheFormData JSON_stringify payload now random ;;; ret None
  else if String.eqb type "GET_CACHE_INFO"
  then info <- getCacheInfo ;; ret (Some (ReplyCacheInfo info))
  else if String.eqb type "CLEAR_CACHE"
  then clearAllCaches ;;; ret (Some ReplySuccess)
  else ret None.

(** The [sync] listener. *)
Definition sync_listener (JSON_stringify : Json -> string)
    (network : nat -> Request -> FetchResult) (event_tag : string) : M unit :=
  if String.eqb event_tag "form-submission"
  then syncFormSubmissions JSON_stringify network
  else ret tt.

(** The [periodicsync] listener. *)
Definition periodicsync_listener (Date_parse : string -> option Z)
    (event_tag : string) (now : Z) : M unit :=
  if String.eqb event_tag "cleanup-cache"
  then cleanupOldCache Date_parse now ;;; ret tt
  else ret tt.

(** [s] holds [needle] somewhere. *)
Definition substring_of (needle s : string) : Prop :=
  exists before after, s = before +:+ needle +:+ after.

(** What the request strategies have no business with: the database, the
    notifications and the [skipWaiting] flag. *)
Definition beside_caches (w : World) : option Database * list Notification * bool :=
  (indexedDB w, notifications w, skip_waiting w).

(** The namespace and key a cache writer can change. *)
Definition writer_target (op : CacheWriter) : string * string :=
  match op with
  | NetworkFirst request => (DATA_CACHE_NAME, url request)
  | DocumentWithFallback request => (CACHE_NAME, url request)
  | CacheFirst request => (CACHE_NAME, url request)
  | CACHE_FORM_DATA _ now random =>
      (DATA_CACHE_NAME, "form-" +:+ pretty now +:+ "-" +:+ random)
  end.

(** ** Sample inputs for the listeners *)

Module Scenario.

(** A network on which every core file is served. *)
Definition net_serves (n : nat) (request : Request) : FetchResult :=
  Resolves (Sample.response 200 (url request)).

(** A network that answers the first call and rejects the next. *)
Definition net_then_down (n : nat) (request : Request) : FetchResult :=
  match n with
  | O => Resolves (Sample.response 200 "live")
  | _ => Rejects
  end.


(** Namespaces of an older version beside the current ones. *)
Definition upgraded_world : World :=
  {| caches :=
       <["sh-formu-pwa-v1.0.0" := {[ "/" := Sample.response 200 "old" ]}]>
         (<[CACHE_NAME := {[ "/" := Sample.response 200 "new" ]}]>
            {[ DATA_CACHE_NAME := {[ "/api/forms" := Sample.response 200 "[]" ]} ]});
     indexedDB := None; fetch_log := []; notifications := [];
     skip_waiting := false |}.

(** A core namespace that holds the offline page only. *)
Definition offline_page_world : World :=
  {| caches := {[ CACHE_NAME := {[ OFFLINE_URL := Sample.response 200 "offline" ]} ]};
     indexedDB := None; fetch_log := []; notifications := [];
     skip_waiting := false |}.

(** A data namespace with an entry whose date does not parse and one whose
    date header is empty. *)
Definition odd_dates_world : World :=
  {| caches :=
       {[ DATA_CACHE_NAME :=
            <["/api/a" := Sample.dated "yesterday" "[]"]>
              {[ "/api/b" := Sample.dated "" "[]" ]} ]};
     indexedDB := None; fetch_log := []; notifications := [];
     skip_waiting := false |}.

End Scenario.


(** ** Properties *)

(** *** Running a computation step by step *)

Lemma exec_bind {A B : Type} (m : M A) (k : A -> M B) (w : World) :
  exec (bind m k) w = exec (k (eval m w)) (exec m w).
Proof. unfold exec, eval, bind. by destruct (m w). Qed.

Lemma eval_bind {A B : Type} (m : M A) (k : A -> M B) (w : World) :
  eval (bind m k) w = eval (k (eval m w)) (exec m w).
Proof. unfold exec, eval, bind. by destruct (m w). Qed.

Lemma exec_ret {A : Type} (a : A) (w : World) : exec (ret a) w = w.
Proof. done. Qed.

Lemma eval_ret {A : Type} (a : A) (w : World) : eval (ret a) w = a.
Proof. done. Qed.

Lemma eval_caches_open (name : string) (w : World) : eval (caches_open name) w = name.
Proof. unfold eval, caches_open. by destruct (caches w !! name). Qed.

Lemma eval_cache_match (cache key : string) (w : World) :
  eval (cache_match cache key) w = the_cache cache w !! key.
Proof. done. Qed.

Lemma exec_cache_match (cache key : string) (w : World) :
  exec (cache_match cache key) w = w.
Proof. done. Qed.

Lemma eval_cache_keys (cache : string) (w : World) :
  eval (cache_keys cache) w = (map_to_list (the_cache cache w)).*1.
Proof. done. Qed.

Lemma exec_cache_keys (cache : string) (w : World) : exec (cache_keys cache) w = w.
Proof. done. Qed.

(** Opening a namespace changes no entry and nothing else of the world. *)
Lemma the_cache_caches_open (name other : string) (w : World) :
  the_cache other (exec (caches_open name) w) = the_cache other w.
Proof.
  unfold exec, caches_open, the_cache.
  destruct (caches w !! name) eqn:E; simpl; [done|].
  destruct (decide (name = other)) as [->|Hne].
  - by rewrite lookup_insert_eq, E.
  - by rewrite lookup_insert_ne.
Qed.

Lemma fetch_log_caches_open (name : string) (w : World) :
  fetch_log (exec (caches_open name) w) = fetch_log w.
Proof. unfold exec, caches_open. by destruct (caches w !! name). Qed.


Lemma exec_unawaited {A : Type} (m : M (Settled A)) (w : World) :
  exec (unawaited m) w = exec m w.
Proof. done. Qed.

(** A response the Cache API does not take leaves the state as it is. *)
Lemma exec_cache_put_refused (cache key : string) (r : Response) (w : World) :
  cache_accepts r = false -> exec (cache_put cache key r) w = w.
Proof. intros Hr. unfold exec, cache_put. by rewrite Hr. Qed.

Lemma the_cache_put_eq (cache key : string) (r : Response) (w : World) :
  cache_accepts r = true ->
  the_cache cache (exec (cache_put cache key r) w) = <[key := r]> (the_cache cache w).
Proof.
  intros Hr. unfold exec, cache_put, the_cache. rewrite Hr. simpl.
  by rewrite lookup_insert_eq.
Qed.

Lemma the_cache_put_ne (cache other key : string) (r : Response) (w : World) :
  cache ≠ other ->
  the_cache other (exec (cache_put cache key r) w) = the_cache other w.
Proof.
  intros. unfold exec, cache_put, the_cache.
  destruct (cache_accepts r); simpl; [|done]. by rewrite lookup_insert_ne.
Qed.

Lemma fetch_log_cache_put (cache key : string) (r : Response) (w : World) :
  fetch_log (exec (cache_put cache key r) w) = fetch_log w.
Proof. unfold exec, cache_put. by destruct (cache_accepts r). Qed.

Lemma beside_caches_cache_put (cache key : string) (r : Response) (w : World) :
  beside_caches (exec (cache_put cache key r) w) = beside_caches w.
Proof. unfold exec, cache_put. by destruct (cache_accepts r). Qed.

Lemma the_cache_delete_eq (cache key : string) (w : World) :
  the_cache cache (exec (cache_delete cache key) w) = delete key (the_cache cache w).
Proof. unfold exec, cache_delete, the_cache; simpl. by rewrite lookup_insert_eq. Qed.

Lemma lookup_after_put (cache key : string) (r : Response) (ns k : string)
    (r' : Response) (w : World) :
  the_cache ns (exec (cache_put cache key r) w) !! k = Some r' ->
  r' = r \/ the_cache ns w !! k = Some r'.
Proof.
  destruct (cache_accepts r) eqn:Hr;
    [|rewrite exec_cache_put_refused by done; by right].
  destruct (decide (cache = ns)) as [->|Hne].
  - rewrite the_cache_put_eq by done. destruct (decide (key = k)) as [->|Hk].
    + rewrite lookup_insert_eq. intros [= <-]. by left.
    + rewrite lookup_insert_ne by done. by right.
  - rewrite the_cache_put_ne by done. by right.
Qed.

Lemma the_cache_set_fetch_log (name : string) (l : list Request) (w : World) :
  the_cache name (set_fetch_log l w) = the_cache name w.
Proof. done. Qed.

(** Two facts about [filter]. *)
Lemma filter_keeps_all {A : Type} (P : A -> Prop) `{!forall x, Decision (P x)}
    (l : list A) :
  (forall x, x ∈ l -> P x) -> filter P l = l.
Proof.
  induction l as [|a l IH]; intros Hall; [done|].
  rewrite filter_cons_True by (apply Hall; left).
  f_equal. apply IH. intros x Hx. apply Hall. by right.
Qed.

Lemma filter_keeps_none {A : Type} (P : A -> Prop) `{!forall x, Decision (P x)}
    (l : list A) :
  (forall x, x ∈ l -> ~ P x) -> filter P l = [].
Proof.
  induction l as [|a l IH]; intros Hnone; [done|].
  rewrite filter_cons_False by (apply Hnone; left).
  apply IH. intros x Hx. apply Hnone. by right.
Qed.


(** *** Key order of an object store *)

Lemma ltb_irrefl (s : string) : String.ltb s s = false.
Proof.
  unfold String.ltb.
  pose proof (String.compare_antisym s s) as H.
  destruct (String.compare s s); [done|discriminate|done].
Qed.

Lemma key_ordered_lookup_lt (l : list FormRecord) (i j : nat) (f g : FormRecord) :
  key_ordered l = true -> (i < j)%nat ->
  l !! i = Some f -> l !! j = Some g -> String.ltb (id f) (id g) = true.
Proof.
  revert i j. induction l as [|x l IH]; intros i j Hord Hlt Hi Hj; [done|].
  simpl in Hord. apply andb_true_iff in Hord as [Hhead Htail].
  destruct j as [|j]; [lia|]. simpl in Hj.
  destruct i as [|i]; simpl in Hi.
  - injection Hi as ->.
    rewrite forallb_forall in Hhead. apply Hhead.
    apply list_elem_of_In. by eapply list_elem_of_lookup_2.
  - apply (IH i j); [done|lia|done|done].
Qed.

Lemma ltb_trans (a b c : string) :
  String.ltb a b = true -> String.ltb b c = true -> String.ltb a c = true.
Proof.
  unfold String.ltb.
  destruct (String.compare a b) eqn:Hab; [done| |done].
  destruct (String.compare b c) eqn:Hbc; [done| |done].
  intros _ _.
  assert (H : String_as_OT.lt a c)
    by exact (StrictOrder_Transitive (R := String_as_OT.lt) a b c Hab Hbc).
  unfold String_as_OT.lt in H. change (String.compare a c = Lt) in H.
  by rewrite H.
Qed.

Lemma ltb_total (a b : string) :
  String.ltb a b = false -> a ≠ b -> String.ltb b a = true.
Proof.
  unfold String.ltb. rewrite (String.compare_antisym b a).
  destruct (String.compare a b) eqn:Hab; simpl; [|done|done].
  intros _ Hne. by apply String.compare_eq_iff in Hab.
Qed.

(** Adding a record under a fresh key keeps the store in key order. *)
Lemma key_ordered_insert_by_id (r : FormRecord) (l : list FormRecord) :
  key_ordered l = true ->
  existsb (fun f => String.eqb (id f) (id r)) l = false ->
  key_ordered (insert_by_id r l) = true /\
  forall y, y ∈ insert_by_id r l <-> y = r \/ y ∈ l.
Proof.
  induction l as [|x l IH]; intros Hord Hfresh.
  - split; [done|]. intros y. simpl. rewrite list_elem_of_singleton, elem_of_nil.
    tauto.
  - simpl in Hord, Hfresh.
    apply andb_true_iff in Hord as [Hhead Htail].
    apply orb_false_iff in Hfresh as [Hx Hfresh].
    apply String.eqb_neq in Hx.
    simpl. destruct (String.ltb (id r) (id x)) eqn:Hlt.
    + split; [|intros y; by rewrite (elem_of_cons (x :: l))].
      simpl. rewrite Hlt, Hhead, Htail. simpl.
      rewrite andb_true_r. apply forallb_forall. intros y Hy.
      rewrite forallb_forall in Hhead. eapply ltb_trans; [exact Hlt|by apply Hhead].
    + destruct (IH Htail Hfresh) as [IHord IHin].
      split.
      * simpl. rewrite IHord, andb_true_r. apply forallb_forall. intros y Hy.
        apply list_elem_of_In, IHin in Hy as [->|Hy].
        -- apply ltb_total; [done|]. by intros Heq.
        -- rewrite forallb_forall in Hhead. by apply Hhead, list_elem_of_In.
      * intros y. rewrite !elem_of_cons, IHin. tauto.
Qed.

(** No two records of an object store share a key. *)
Lemma key_ordered_unique (l : list FormRecord) (i j : nat) (f g : FormRecord) :
  key_ordered l = true ->
  l !! i = Some f -> l !! j = Some g -> id f = id g -> i = j.
Proof.
  intros Hord Hi Hj Heq.
  destruct (Nat.lt_trichotomy i j) as [Hlt|[->|Hlt]]; [|done|].
  - pose proof (key_ordered_lookup_lt l i j f g Hord Hlt Hi Hj) as H.
    rewrite Heq, ltb_irrefl in H. discriminate.
  - pose proof (key_ordered_lookup_lt l j i g f Hord Hlt Hj Hi) as H.
    rewrite Heq, ltb_irrefl in H. discriminate.
Qed.

Lemma key_ordered_filter (P : FormRecord -> Prop) `{!forall x, Decision (P x)}
    (l : list FormRecord) :
  key_ordered l = true -> key_ordered (filter P l) = true.
Proof.
  induction l as [|x l IH]; [done|].
  simpl. intros [Hhead Htail]%andb_true_iff.
  rewrite filter_cons. destruct (decide (P x)); [|by apply IH].
  simpl. apply andb_true_iff. split; [|by apply IH].
  rewrite forallb_forall in Hhead. apply forallb_forall.
  intros y Hy. apply Hhead.
  apply list_elem_of_In. apply list_elem_of_In in Hy.
  by apply list_elem_of_filter in Hy as [_ ?].
Qed.


(** *** Namespaces: activation, clearing, inspection *)

Lemma set_caches_same (w : World) : set_caches (caches w) w = w.
Proof. by destruct w. Qed.

(** A loop that deletes the namespaces [del] picks. *)
Lemma exec_delete_loop (del : string -> bool) (l : list string) (w : World) :
  exec (for_of l (fun n => if del n then caches_delete n ;;; ret tt else ret tt)) w =
  set_caches (foldl (fun m n => if del n then delete n m else m) (caches w) l) w.
Proof.
  revert w. induction l as [|n l IH]; intros w; simpl for_of.
  - rewrite exec_ret. simpl. by rewrite set_caches_same.
  - rewrite exec_bind, IH. simpl. by destruct (del n).
Qed.

Lemma lookup_foldl_delete (del : string -> bool) (l : list string)
    (m : gmap string (gmap string Response)) (n : string) :
  foldl (fun m n => if del n then delete n m else m) m l !! n =
  if decide (n ∈ l /\ del n = true) then None else m !! n.
Proof.
  revert m. induction l as [|x l IH]; intros m; cbn [foldl].
  - rewrite decide_False; [done|]. by intros [?%elem_of_nil _].
  - rewrite IH. destruct (decide (n ∈ l /\ del n = true)) as [[Hin Hk]|Hno].
    + rewrite decide_True; [done|]. split; [by right|done].
    + destruct (decide (n = x)) as [->|Hne].
      * destruct (del x) eqn:Hk.
        -- rewrite lookup_delete_eq. rewrite decide_True; [done|]. split; [by left|done].
        -- rewrite decide_False; [done|]. by intros [_ ?].
      * assert (Hm : (if del x then delete x m else m) !! n = m !! n).
        { destruct (del x); [|done]. by rewrite lookup_delete_ne. }
        rewrite Hm. rewrite decide_False; [done|].
        intros [[?|?]%elem_of_cons ?]; [done|]. by apply Hno.
Qed.

Lemma elem_of_caches_keys (w : World) (n : string) :
  n ∈ eval caches_keys w <-> is_Some (caches w !! n).
Proof.
  unfold eval, caches_keys. simpl. rewrite list_elem_of_fmap. split.
  - intros ([n' c] & -> & Hin). apply elem_of_map_to_list in Hin. by exists c.
  - intros [c Hc]. exists (n, c). split; [done|]. by apply elem_of_map_to_list.
Qed.

Lemma activate_facts (w : World) :
  let w' := exec activate_listener w in
  (forall n, caches w' !! n =
     if decide (n = CACHE_NAME \/ n = DATA_CACHE_NAME) then caches w !! n else None) /\
  indexedDB w' = indexedDB w /\ fetch_log w' = fetch_log w /\
  notifications w' = notifications w /\ skip_waiting w' = skip_waiting w.
Proof.
  cbv zeta. unfold activate_listener. rewrite exec_bind.
  change (exec caches_keys w) with w.
  rewrite (exec_delete_loop
    (fun n => negb (String.eqb n CACHE_NAME) && negb (String.eqb n DATA_CACHE_NAME))).
  split; [|done].
  intros n. simpl. rewrite lookup_foldl_delete.
  assert (Hdel : negb (String.eqb n CACHE_NAME) && negb (String.eqb n DATA_CACHE_NAME)
                   = true <-> ~ (n = CACHE_NAME \/ n = DATA_CACHE_NAME)).
  { rewrite andb_true_iff, !negb_true_iff, !String.eqb_neq. tauto. }
  destruct (decide (n = CACHE_NAME \/ n = DATA_CACHE_NAME)) as [Hn|Hn].
  - rewrite decide_False; [done|]. intros [_ Hk]. by apply Hdel in Hk.
  - destruct (decide (n ∈ eval caches_keys w /\
        negb (String.eqb n CACHE_NAME) && negb (String.eqb n DATA_CACHE_NAME) = true))
      as [_|Hno]; [done|].
    destruct (caches w !! n) as [c|] eqn:Hc; [|done].
    exfalso. apply Hno. split.
    + apply elem_of_caches_keys. by exists c.
    + by apply Hdel.
Qed.

(** Activation keeps the core namespace and the data namespace, with
    their entries, deletes every other namespace, and touches nothing
    else. *)
Theorem activate_keeps_current_namespaces (w : World) :
  let w' := exec activate_listener w in
  (forall n, caches w' !! n =
     if decide (n = CACHE_NAME \/ n = DATA_CACHE_NAME) then caches w !! n else None) /\
  indexedDB w' = indexedDB w /\ fetch_log w' = fetch_log w /\
  notifications w' = notifications w /\ skip_waiting w' = skip_waiting w.
Proof.
  cbv zeta. destruct (activate_facts w) as (Hc & Hdb & Hlog & Hn & Hs).
  split; [exact Hc|]. by rewrite Hdb, Hlog, Hn, Hs.
Qed.

Lemma clearAllCaches_facts (w : World) :
  let w' := exec clearAllCaches w in
  caches w' = ∅ /\
  indexedDB w' = indexedDB w /\ fetch_log w' = fetch_log w /\
  notifications w' = notifications w /\ skip_waiting w' = skip_waiting w.
Proof.
  cbv zeta. unfold clearAllCaches. rewrite exec_bind.
  change (exec caches_keys w) with w.
  rewrite (exec_delete_loop (fun _ => true)).
  split; [|done].
  apply map_eq. intros n. unfold set_caches. cbn [caches].
  rewrite (lookup_foldl_delete (fun _ => true)), lookup_empty.
  destruct (decide (n ∈ eval caches_keys w /\ true = true)) as [_|Hno]; [done|].
  destruct (caches w !! n) as [c|] eqn:Hc; [|done].
  exfalso. apply Hno. split; [|done].
  apply elem_of_caches_keys. by exists c.
Qed.

(** [clearAllCaches] leaves no namespace, and touches nothing else. *)
Theorem clearAllCaches_leaves_nothing (w : World) :
  let w' := exec clearAllCaches w in
  caches w' = ∅ /\
  indexedDB w' = indexedDB w /\ fetch_log w' = fetch_log w /\
  notifications w' = notifications w /\ skip_waiting w' = skip_waiting w.
Proof.
  cbv zeta. destruct (clearAllCaches_facts w) as (Hc & Hdb & Hlog & Hn & Hs).
  split; [exact Hc|]. by rewrite Hdb, Hlog, Hn, Hs.
Qed.

Lemma caches_open_existing (n : string) (w : World) :
  is_Some (caches w !! n) -> caches_open n w = (n, w).
Proof. intros [c Hc]. unfold caches_open. by rewrite Hc. Qed.

Lemma getCacheInfo_loop_run (l : list string) (w : World) :
  (forall n, n ∈ l -> is_Some (caches w !! n)) ->
  getCacheInfo_loop l w =
  (map (fun n =>
          {| cache_name := n;
             cache_size := length ((map_to_list (the_cache n w)).*1);
             items := (map_to_list (the_cache n w)).*1 |}) l,
   w).
Proof.
  induction l as [|n l IH]; intros Hin; [done|].
  simpl getCacheInfo_loop. unfold bind at 1.
  rewrite caches_open_existing by (apply Hin; by left).
  unfold bind at 1, cache_keys at 1. unfold bind at 1.
  rewrite IH by (intros n' Hn'; apply Hin; by right).
  done.
Qed.

Lemma getCacheInfo_facts (w : World) :
  let info := eval getCacheInfo w in
  exec getCacheInfo w = w /\
  totalCaches info = size (caches w) /\
  length (info_caches info) = totalCaches info /\
  NoDup (map cache_name (info_caches info)) /\
  (forall n, is_Some (caches w !! n) <->
     exists d, d ∈ info_caches info /\ cache_name d = n) /\
  (forall d, d ∈ info_caches info ->
     exists c, caches w !! cache_name d = Some c /\
       cache_size d = size c /\ length (items d) = size c /\
       NoDup (items d) /\
       forall k, k ∈ items d <-> is_Some (c !! k)).
Proof.
  cbv zeta.
  assert (Hrun : getCacheInfo w =
    ({| totalCaches := length (eval caches_keys w);
        info_caches :=
          map (fun n =>
                 {| cache_name := n;
                    cache_size := length ((map_to_list (the_cache n w)).*1);
                    items := (map_to_list (the_cache n w)).*1 |})
              (eval caches_keys w) |}, w)).
  { assert (Hloop := getCacheInfo_loop_run (eval caches_keys w) w
                       (fun n => proj1 (elem_of_caches_keys w n))).
    rewrite (surjective_pairing (getCacheInfo w)).
    change ((getCacheInfo w).1) with (eval getCacheInfo w).
    change ((getCacheInfo w).2) with (exec getCacheInfo w).
    unfold getCacheInfo. rewrite !eval_bind, !exec_bind, eval_ret, exec_ret.
    change (exec caches_keys w) with w.
    unfold eval at 2, exec. by rewrite Hloop. }
  unfold eval at 1 2 3 4 5 6, exec. rewrite Hrun. simpl.
  assert (Hnames : forall l : list string,
    map cache_name
      (map (fun n =>
              {| cache_name := n;
                 cache_size := length ((map_to_list (the_cache n w)).*1);
                 items := (map_to_list (the_cache n w)).*1 |}) l) = l).
  { intros l. induction l as [|x l IH]; [done|]. simpl. by rewrite IH. }
  split; [done|]. split.
  { unfold eval, caches_keys. simpl. by rewrite length_fmap, length_map_to_list. }
  split; [by rewrite length_map|]. split.
  { rewrite Hnames. apply NoDup_fst_map_to_list. }
  split.
  - intros n. rewrite <- elem_of_caches_keys. split.
    + intros Hn.
      exists {| cache_name := n;
                cache_size := length ((map_to_list (the_cache n w)).*1);
                items := (map_to_list (the_cache n w)).*1 |}.
      split; [|reflexivity].
      apply list_elem_of_In, in_map_iff. exists n. split; [reflexivity|].
      by apply list_elem_of_In.
    + intros (d & Hd & <-).
      apply list_elem_of_In, in_map_iff in Hd as (n & <- & Hn).
      by apply list_elem_of_In.
  - intros d Hd.
    apply list_elem_of_In, in_map_iff in Hd as (n & <- & Hn). simpl.
    apply list_elem_of_In, elem_of_caches_keys in Hn as [c Hc].
    exists c. unfold the_cache. rewrite Hc. simpl.
    rewrite length_fmap, length_map_to_list.
    split; [done|]. split; [done|]. split; [done|]. split.
    + apply NoDup_fst_map_to_list.
    + intros k. rewrite list_elem_of_fmap. split.
      * intros ([k' r] & -> & Hin). apply elem_of_map_to_list in Hin. by exists r.
      * intros [r Hr]. exists (k, r). split; [done|]. by apply elem_of_map_to_list.
Qed.

(** [getCacheInfo] reads and changes nothing; it counts the namespaces,
    lists each of them once, and gives for each its keys, each once, with
    their number as [size]. *)
Theorem getCacheInfo_snapshot (w : World) :
  let info := eval getCacheInfo w in
  exec getCacheInfo w = w /\
  totalCaches info = size (caches w) /\
  length (info_caches info) = totalCaches info /\
  NoDup (map cache_name (info_caches info)) /\
  (forall n, is_Some (caches w !! n) <->
     exists d, d ∈ info_caches info /\ cache_name d = n) /\
  (forall d, d ∈ info_caches info ->
     exists c, caches w !! cache_name d = Some c /\
       cache_size d = size c /\ length (items d) = size c /\
       NoDup (items d) /\
       forall k, k ∈ items d <-> is_Some (c !! k)).
Proof.
  cbv zeta.
  destruct (getCacheInfo_facts w) as (Hw & Htotal & Hlen & Hnd & Hnames & Hdetails).
  split; [exact Hw|]. split; [exact Htotal|]. split; [exact Hlen|].
  split; [exact Hnd|]. split; [exact Hnames|exact Hdetails].
Qed.


Lemma forallb_false_lookup {A : Type} (p : A -> bool) (l : list A) :
  forallb p l = false -> exists i x, l !! i = Some x /\ p x = false.
Proof.
  induction l as [|a l IH]; simpl; [done|].
  destruct (p a) eqn:Ha; simpl.
  - intros (i & x & Hi & Hx)%IH. by exists (S i), x.
  - intros _. by exists 0%nat, a.
Qed.


Lemma NoDup_CORE_CACHE_FILES : NoDup CORE_CACHE_FILES.
Proof. apply (bool_decide_unpack (NoDup CORE_CACHE_FILES)). by vm_compute. Qed.


(** *** Substrings *)

Lemma prefix_append (needle s : string) :
  String.prefix needle s = true <-> exists after, s = needle +:+ after.
Proof.
  revert s. induction needle as [|a needle IH]; intros s.
  - split; [|by destruct s]. intros _. by exists s.
  - destruct s as [|b s]; simpl.
    + split; [done|]. by intros [after ?].
    + destruct (Ascii.ascii_dec a b) as [->|Hne].
      * rewrite IH. split; intros [after H]; exists after; [by rewrite H|].
        by injection H.
      * split; [done|]. intros [after H]. by injection H.
Qed.

(** [includes] finds exactly the substrings. *)
Lemma includes_substring_of (needle s : string) :
  includes needle s = true <-> substring_of needle s.
Proof.
  unfold substring_of. induction s as [|a s IH]; cbn [includes].
  - rewrite orb_false_r, prefix_append. split.
    + intros [after H]. by exists "", after.
    + intros (before & after & H). destruct before; [by exists after|done].
  - rewrite orb_true_iff, IH, prefix_append. split.
    + intros [[after H]|(before & after & H)].
      * by exists "", after.
      * exists (String a before), after. simpl. by rewrite H.
    + intros ([|b before] & after & H).
      * left. by exists after.
      * right. simpl in H. injection H as -> H. by exists before, after.
Qed.


Lemma filter_ext_elem {A : Type} (P Q : A -> Prop)
    `{!forall x, Decision (P x), !forall x, Decision (Q x)} (l : list A) :
  (forall x, x ∈ l -> P x <-> Q x) -> filter P l = filter Q l.
Proof.
  induction l as [|a l IH]; intros Hext; [done|].
  assert (Hl : filter P l = filter Q l)
    by (apply IH; intros x Hx; apply Hext; by right).
  rewrite !filter_cons, Hl.
  destruct (decide (P a)) as [Ha|Ha], (decide (Q a)) as [Hb|Hb]; try done.
  - exfalso. apply Hb. apply (Hext a); [by left|done].
  - exfalso. apply Ha. apply (Hext a); [by left|done].
Qed.


Section Properties.

Set Default Proof Using "Type".

Variable JSON_stringify : Json -> string.
Variable Date_parse : string -> option Z.
Variable getOfflineHTML : string.
Variable network : nat -> Request -> FetchResult.

Lemma eval_fetch (request : Request) (w : World) :
  eval (fetch network request) w = network (length (fetch_log w)) request.
Proof. done. Qed.

Lemma exec_fetch (request : Request) (w : World) :
  exec (fetch network request) w = set_fetch_log (fetch_log w ++ [request])%list w.
Proof. done. Qed.


(** How the steps of a computation are unfolded in the proofs below. *)
Ltac step :=
  repeat first
    [ rewrite exec_bind | rewrite eval_bind | rewrite exec_ret | rewrite eval_ret
    | rewrite exec_unawaited
    | rewrite eval_caches_open | rewrite eval_cache_match
    | rewrite exec_cache_match | rewrite eval_fetch | rewrite exec_fetch
    | rewrite the_cache_set_fetch_log | rewrite the_cache_caches_open
    | rewrite fetch_log_caches_open ].

(** *** Cache-First *)

(** C5 (amended). Cache-First: when the core namespace holds an entry for
    the request, that entry is returned and [fetch] is not called; on a
    miss the network is asked once and a 2xx response is returned; it is
    stored under the request when the Cache API takes it, and not stored
    when it does not (status 206, or a [Vary: *] header); a transport
    failure gives an empty response with status 404. *)
Theorem cacheFirst_hit_miss (request : Request) (w : World) :
  let w' := exec (cacheFirstStrategy network request) w in
  let answer := eval (cacheFirstStrategy network request) w in
  (forall r, the_cache CACHE_NAME w !! url request = Some r ->
     answer = r /\ fetch_log w' = fetch_log w) /\
  (forall r, the_cache CACHE_NAME w !! url request = None ->
     network (length (fetch_log w)) request = Resolves r -> ok r = true ->
     answer = r /\
     fetch_log w' = (fetch_log w ++ [request])%list /\
     (cache_accepts r = true -> the_cache CACHE_NAME w' !! url request = Some r) /\
     (cache_accepts r = false -> the_cache CACHE_NAME w' = the_cache CACHE_NAME w)) /\
  (the_cache CACHE_NAME w !! url request = None ->
     network (length (fetch_log w)) request = Rejects ->
     status answer = 404 /\ body answer = "" /\
     statusText answer = "Not Found" /\
     the_cache CACHE_NAME w' = the_cache CACHE_NAME w).
Proof.
  unfold cacheFirstStrategy. cbv zeta. step.
  split; [|split].
  - intros r Hr. rewrite Hr. step. done.
  - intros r Hmiss Hnet Hok. rewrite Hmiss. step. rewrite Hnet. step.
    rewrite Hok. step. rewrite fetch_log_cache_put. step.
    split; [done|]. split; [done|]. split.
    + intros Hacc. rewrite the_cache_put_eq by done. step.
      by rewrite lookup_insert_eq.
    + intros Href. rewrite exec_cache_put_refused by done. by step.
  - intros Hmiss Hnet. rewrite Hmiss. step. rewrite Hnet. step. done.
Qed.

(** *** Network-First *)

(** C4 (amended). Network-First: when the fetch rejects (a transport
    failure) the data namespace is looked up under the request, the stored
    response is returned when there is one, and otherwise a response with
    status 503 whose body is the JSON text of an object with the fields
    [error] and [message]; a response with a non-2xx status is not a
    failure: it is returned as it came and nothing is stored. *)
Theorem networkFirst_fallback (request : Request) (w : World) :
  let w' := exec (networkFirstStrategy JSON_stringify network request) w in
  let answer := eval (networkFirstStrategy JSON_stringify network request) w in
  (network (length (fetch_log w)) request = Rejects ->
     (forall r, the_cache DATA_CACHE_NAME w !! url request = Some r -> answer = r) /\
     (the_cache DATA_CACHE_NAME w !! url request = None ->
        status answer = 503 /\
        headers_get "content-type" (headers answer) = Some "application/json" /\
        exists error message,
          body answer =
            JSON_stringify (JObject [("error", error); ("message", message)]))) /\
  (forall r, network (length (fetch_log w)) request = Resolves r -> ok r = false ->
     answer = r /\ the_cache DATA_CACHE_NAME w' = the_cache DATA_CACHE_NAME w).
Proof.
  unfold networkFirstStrategy. cbv zeta. step.
  split.
  - intros Hnet. rewrite Hnet. step. split.
    + intros r Hr. by rewrite Hr.
    + intros Hmiss. rewrite Hmiss. step. simpl. repeat split; eauto.
  - intros r Hnet Hok. rewrite Hnet. step. rewrite Hok. step. done.
Qed.

(** *** Document-with-Fallback *)

Lemma documentStrategy_catch_answer (cache : string) (request : Request) (w : World) :
  eval (documentStrategy_catch getOfflineHTML cache request) w =
  match the_cache cache w !! url request with
  | Some r => JsResponse r
  | None =>
      match the_cache cache w !! OFFLINE_URL with
      | Some r => JsResponse r
      | None => JsUndefined
      end
  end.
Proof.
  unfold documentStrategy_catch. step.
  destruct (the_cache cache w !! url request); step; [done|].
  by destruct (the_cache cache w !! OFFLINE_URL).
Qed.

Lemma documentStrategy_catch_world (cache : string) (request : Request) (w : World) :
  exec (documentStrategy_catch getOfflineHTML cache request) w = w.
Proof.
  unfold documentStrategy_catch. step.
  by destruct (the_cache cache w !! url request).
Qed.

(** What [documentStrategy] settles to: the live response when it is 2xx,
    else the entry of the core namespace for the request, else the entry
    for [OFFLINE_URL], else [undefined]. The inline offline page is never
    the answer: the promise on the left of [||] is always truthy. *)
Lemma documentStrategy_answer (request : Request) (w : World) :
  eval (documentStrategy getOfflineHTML network request) w =
  let fallback :=
    match the_cache CACHE_NAME w !! url request with
    | Some r => JsResponse r
    | None =>
        match the_cache CACHE_NAME w !! OFFLINE_URL with
        | Some r => JsResponse r
        | None => JsUndefined
        end
    end in
  match network (length (fetch_log w)) request with
  | Resolves r => if ok r then JsResponse r else fallback
  | Rejects => fallback
  end.
Proof.
  unfold documentStrategy. cbv zeta. step.
  destruct (network (length (fetch_log w)) request) as [r|].
  - destruct (ok r); step; [done|].
    rewrite documentStrategy_catch_answer. by step.
  - rewrite documentStrategy_catch_answer. by step.
Qed.

(** *** The router *)

(** A request that is not a [GET] is left alone: no [respondWith], no
    fetch, no change of state. *)
Lemma fetch_listener_skips_non_GET (request : Request) (w : World) :
  method request ≠ "GET" ->
  fetch_listener JSON_stringify getOfflineHTML network request w = (None, w).
Proof.
  intros Hm. unfold fetch_listener.
  apply String.eqb_neq in Hm. by rewrite Hm.
Qed.

(** A [GET] whose URL holds [/api/] gets the answer of Network-First. *)
Lemma fetch_listener_api (request : Request) (w : World) :
  method request = "GET" -> includes "/api/" (url request) = true ->
  eval (fetch_listener JSON_stringify getOfflineHTML network request) w =
  Some (JsResponse (eval (networkFirstStrategy JSON_stringify network request) w)).
Proof.
  intros Hm Hu. unfold fetch_listener.
  apply String.eqb_eq in Hm. rewrite Hm, Hu. simpl.
  by rewrite eval_bind, eval_ret.
Qed.

(** *** Only 2xx responses are written *)

Lemma exec_cacheFormData (payload : Json) (now : Z) (random : string) (w : World) :
  exec (cacheFormData JSON_stringify payload now random) w =
  exec (cache_put DATA_CACHE_NAME ("form-" +:+ pretty now +:+ "-" +:+ random)
          (new_Response (JSON_stringify payload) no_init))
       (exec (caches_open DATA_CACHE_NAME) w).
Proof.
  unfold cacheFormData. cbv zeta. rewrite !exec_bind, eval_caches_open.
  by destruct (eval (cache_put _ _ _) _).
Qed.

(** The response [cacheFormData] builds is one the Cache API takes. *)
Lemma cacheFormData_response_accepted (b : string) :
  cache_accepts (new_Response b no_init) = true.
Proof. done. Qed.

(** C6. Whatever one of the four writers leaves in a namespace is either
    a 2xx response or an entry that was there before: Network-First,
    Document-with-Fallback and Cache-First store the live response only
    when it is [ok], and [CACHE_FORM_DATA] stores a response it builds with
    status 200. *)
Theorem only_ok_responses_written (op : CacheWriter) (w : World)
    (ns key : string) (r : Response) :
  the_cache ns (exec (run_writer JSON_stringify getOfflineHTML network op) w) !! key
    = Some r ->
  ok r = true \/ the_cache ns w !! key = Some r.
Proof.
  destruct op as [request|request|request|payload now random];
    unfold run_writer, networkFirstStrategy, documentStrategy, cacheFirstStrategy,
      cacheFormData; cbv zeta; step.
  - destruct (network (length (fetch_log w)) request) as [resp|]; step.
    + destruct (ok resp) eqn:Hok; step.
      * intros H. apply lookup_after_put in H as [->|H]; [by left|].
        right. revert H. by step.
      * by right.
    + destruct (the_cache DATA_CACHE_NAME w !! url request); step; by right.
  - destruct (network (length (fetch_log w)) request) as [resp|]; step.
    + destruct (ok resp) eqn:Hok; step.
      * intros H. apply lookup_after_put in H as [->|H]; [by left|].
        right. revert H. by step.
      * rewrite documentStrategy_catch_world. step. by right.
    + rewrite documentStrategy_catch_world. step. by right.
  - destruct (the_cache CACHE_NAME w !! url request); step; [by right|].
    destruct (network (length (fetch_log w)) request) as [resp|]; step.
    + destruct (ok resp) eqn:Hok; step.
      * intros H. apply lookup_after_put in H as [->|H]; [by left|].
        right. revert H. by step.
      * by right.
    + by right.
  - intros H. apply lookup_after_put in H as [->|H]; [by left|].
    right. revert H. by step.
Qed.


(** *** Install *)

Lemma exec_fetch_all (urls : list string) (w : World) :
  exec (fetch_all network urls) w =
  set_fetch_log (fetch_log w ++ map get_request urls)%list w.
Proof.
  revert w. induction urls as [|u urls IH]; intros w; simpl fetch_all.
  - rewrite exec_ret. destruct w. unfold set_fetch_log. simpl.
    by rewrite app_nil_r.
  - step. rewrite IH. unfold set_fetch_log. simpl. by rewrite <- app_assoc.
Qed.


(** What [install] writes into the core namespace is 2xx as well:
    [cache.addAll] stores only when every answer is [ok]. *)
Lemma put_all_ok_only (cache : string) (entries : list (string * FetchResult))
    (w : World) (ns key : string) (r : Response) :
  (forall u a, (u, a) ∈ entries -> fetched_storable a = true) ->
  the_cache ns (exec (put_all cache entries) w) !! key = Some r ->
  ok r = true \/ the_cache ns w !! key = Some r.
Proof.
  revert w. induction entries as [|[u a] entries IH]; intros w Hok; simpl put_all.
  - rewrite exec_ret. by right.
  - assert (Hrest : forall u' a', (u', a') ∈ entries -> fetched_storable a' = true)
      by (intros u' a' Hin; apply (Hok u' a'); by right).
    destruct a as [resp|]; [|by apply IH].
    rewrite exec_bind, exec_unawaited. intros H.
    apply IH in H as [H|H]; [by left| |done].
    apply lookup_after_put in H as [->|H]; [|by right].
    left. assert (Hresp : fetched_storable (Resolves resp) = true)
      by (apply (Hok u); by left).
    simpl in Hresp. by apply andb_true_iff in Hresp as [? _].
Qed.

Lemma cache_addAll_ok_only (cache : string) (urls : list string) (w : World)
    (ns key : string) (r : Response) :
  the_cache ns (exec (cache_addAll network cache urls) w) !! key = Some r ->
  ok r = true \/ the_cache ns w !! key = Some r.
Proof.
  unfold cache_addAll. rewrite exec_bind.
  destruct (forallb fetched_storable (eval (fetch_all network urls) w)) eqn:Hall.
  - rewrite exec_bind, exec_ret. intros H.
    apply put_all_ok_only in H as [H|H]; [by left| |].
    + right. revert H. by rewrite exec_fetch_all, the_cache_set_fetch_log.
    + intros u a Hin. rewrite forallb_forall in Hall. apply Hall.
      apply list_elem_of_In. apply elem_of_zip_r in Hin. done.
  - rewrite exec_ret, exec_fetch_all, the_cache_set_fetch_log. by right.
Qed.



(** *** Background sync *)

Lemma pending_openDB (w : World) : the_db (exec openDB w) = the_db w.
Proof.
  unfold exec, openDB, the_db.
  destruct (indexedDB w) eqn:E; simpl; by rewrite ?E.
Qed.

Lemma fetch_log_openDB (w : World) : fetch_log (exec openDB w) = fetch_log w.
Proof. unfold exec, openDB. by destruct (indexedDB w). Qed.

(** The drain never reaches its loop: [pendingForms] is the request, the
    [for ... of] throws, and the outer [catch] ends the run. Nothing is
    fetched, deleted or notified; the database is opened and that is
    all. *)
Lemma syncFormSubmissions_run (w : World) :
  syncFormSubmissions JSON_stringify network w = (tt, exec openDB w).
Proof.
  unfold syncFormSubmissions, bind, await_request, pending_getAll, ret, exec.
  by destruct (openDB w).
Qed.

Lemma syncFormSubmissions_idle (w : World) :
  let w' := exec (syncFormSubmissions JSON_stringify network) w in
  the_db w' = the_db w /\ fetch_log w' = fetch_log w /\
  notifications w' = notifications w /\ caches w' = caches w.
Proof.
  cbv zeta. unfold exec at 1 2 3 4. rewrite syncFormSubmissions_run. simpl.
  split; [apply pending_openDB|]. split; [apply fetch_log_openDB|].
  unfold exec, openDB. by destruct (indexedDB w).
Qed.

(** *** Removal is idempotent *)

Lemma the_db_pending_delete (key : string) (w : World) :
  the_db (exec (pending_delete key) w) =
  {| pending_forms := filter (fun g => id g ≠ key) (pending w);
     completed_forms := completed_forms (the_db w) |}.
Proof. done. Qed.

Lemma the_db_markSynced (f : FormRecord) (w : World) :
  the_db (exec (markSynced f) w) = the_db (exec (pending_delete (id f)) w).
Proof. done. Qed.

(** C7. Removal from the queue is idempotent: deleting a key that is not
    in [pending-forms] leaves the database as it is, so a second
    [delete] of the same key, or the [markSynced] step on a record that
    has been removed already, changes nothing in the durable store; the
    operations have no failing case. *)
Theorem removal_idempotent (key : string) (f : FormRecord) (w : World) :
  ((forall g, g ∈ pending w -> id g ≠ key) ->
     the_db (exec (pending_delete key) w) = the_db w) /\
  exec (pending_delete key) (exec (pending_delete key) w) =
    exec (pending_delete key) w /\
  the_db (exec (markSynced f) (exec (pending_delete (id f)) w)) =
    the_db (exec (pending_delete (id f)) w) /\
  the_db (exec (markSynced f) (exec (markSynced f) w)) =
    the_db (exec (markSynced f) w).
Proof.
  assert (Hagain : forall k w0,
    the_db (exec (pending_delete k) (exec (pending_delete k) w0)) =
    the_db (exec (pending_delete k) w0)).
  { intros k w0. rewrite !the_db_pending_delete. f_equal.
    unfold pending at 1. rewrite the_db_pending_delete. simpl.
    apply filter_keeps_all. by intros g [? _]%list_elem_of_filter. }
  split; [|split; [|split]].
  - intros Hnone. rewrite the_db_pending_delete, filter_keeps_all by done.
    unfold pending. by destruct (the_db w).
  - pose proof (Hagain key w) as H.
    unfold exec, pending_delete, set_pending, set_indexedDB in *. simpl in *.
    f_equal. unfold the_db in H at 1. simpl in H. by rewrite H.
  - rewrite the_db_markSynced. apply Hagain.
  - rewrite !the_db_markSynced.
    change (the_db (exec (pending_delete (id f)) (exec (markSynced f) w)))
      with (the_db (exec (pending_delete (id f)) (exec (pending_delete (id f)) w))).
    apply Hagain.
Qed.


(** *** Periodic cleanup *)

Lemma expired_capture_timestamp (now : Z) (r : Response) :
  expired Date_parse now r =
  match capture_timestamp Date_parse r with
  | Some t => now - t >? maxAge
  | None => false
  end.
Proof.
  unfold expired, capture_timestamp.
  destruct (headers_get "date" (headers r)) as [d|]; [|done].
  by destruct (truthy_string d).
Qed.

Lemma cleanup_one_present (cache : string) (now : Z) (k : string) (r : Response)
    (w : World) :
  the_cache cache w !! k = Some r ->
  eval (cleanup_one Date_parse cache now k) w = true /\
  exec (cleanup_one Date_parse cache now k) w =
    if expired Date_parse now r then exec (cache_delete cache k) w else w.
Proof.
  intros Hk. unfold cleanup_one, expired. step. rewrite Hk.
  destruct (headers_get "date" (headers r)) as [d|]; [|done].
  destruct (truthy_string d); [|done].
  destruct (Date_parse d) as [t|]; [|done].
  by destruct (now - t >? maxAge).
Qed.

(** The loop of [cleanupOldCache] over keys that are in the cache: no
    turn throws, and exactly the expired entries among them go. *)
Lemma cleanup_loop (cache : string) (now : Z) (ks : list string) (w : World) :
  NoDup ks ->
  (forall k, k ∈ ks -> is_Some (the_cache cache w !! k)) ->
  eval (for_of_try ks (cleanup_one Date_parse cache now)) w = true /\
  forall k,
    the_cache cache (exec (for_of_try ks (cleanup_one Date_parse cache now)) w) !! k =
    match the_cache cache w !! k with
    | Some r =>
        if decide (k ∈ ks)
        then (if expired Date_parse now r then None else Some r)
        else Some r
    | None => None
    end.
Proof.
  revert w. induction ks as [|k0 ks IH]; intros w Hnd Hin; simpl for_of_try.
  - split; [done|]. intros k. rewrite exec_ret.
    destruct (the_cache cache w !! k); [|done].
    by rewrite decide_False by apply not_elem_of_nil.
  - apply NoDup_cons in Hnd as [Hk0 Hnd].
    destruct (Hin k0) as [r0 Hr0]; [by left|].
    destruct (cleanup_one_present cache now k0 r0 w Hr0) as [Hev Hex].
    rewrite eval_bind, exec_bind, Hev.
    set (w1 := exec (cleanup_one Date_parse cache now k0) w) in *.
    assert (Hw1 : forall k, the_cache cache w1 !! k =
      if decide (k = k0)
      then (if expired Date_parse now r0 then None else Some r0)
      else the_cache cache w !! k).
    { intros k. rewrite Hex. destruct (expired Date_parse now r0).
      - rewrite the_cache_delete_eq. destruct (decide (k = k0)) as [->|Hne].
        + apply lookup_delete_eq.
        + by rewrite lookup_delete_ne.
      - by destruct (decide (k = k0)) as [->|Hne]. }
    destruct (IH w1) as [IHev IHex]; [done| |].
    { intros k Hk. rewrite Hw1. rewrite decide_False by (intros ->; done).
      apply Hin. by right. }
    split; [done|].
    intros k. rewrite IHex, Hw1.
    destruct (decide (k = k0)) as [->|Hne].
    + rewrite Hr0.
      rewrite (decide_True (P := k0 ∈ k0 :: ks)) by by left.
      destruct (expired Date_parse now r0); [done|].
      by rewrite (decide_False (P := k0 ∈ ks)).
    + destruct (the_cache cache w !! k) as [r|]; [|done].
      destruct (decide (k ∈ ks)) as [Hk|Hk].
      * rewrite (decide_True (P := k ∈ k0 :: ks)) by by right. done.
      * rewrite (decide_False (P := k ∈ k0 :: ks)); [done|].
        by intros [?|?]%elem_of_cons.
Qed.

(** A cleanup pass runs to its end and removes from the data namespace
    exactly the entries [expired] tells. *)
Lemma cleanupOldCache_lookup (now : Z) (w : World) (k : string) :
  the_cache DATA_CACHE_NAME (exec (cleanupOldCache Date_parse now) w) !! k =
  match the_cache DATA_CACHE_NAME w !! k with
  | Some r => if expired Date_parse now r then None else Some r
  | None => None
  end.
Proof.
  unfold cleanupOldCache. step. rewrite eval_cache_keys, exec_cache_keys. step.
  set (w1 := exec (caches_open DATA_CACHE_NAME) w).
  assert (Hc : the_cache DATA_CACHE_NAME w1 = the_cache DATA_CACHE_NAME w)
    by apply the_cache_caches_open.
  rewrite <- Hc.
  destruct (cleanup_loop DATA_CACHE_NAME now
              (map_to_list (the_cache DATA_CACHE_NAME w1)).*1 w1) as [_ Hex].
  - apply NoDup_fst_map_to_list.
  - intros k' Hk'. apply list_elem_of_fmap in Hk' as [[k'' r] [-> Hin]].
    apply elem_of_map_to_list in Hin. simpl. by rewrite Hin.
  - rewrite Hex. destruct (the_cache DATA_CACHE_NAME w1 !! k) as [r|] eqn:Hk; [|done].
    rewrite decide_True; [done|].
    apply list_elem_of_fmap. exists (k, r). split; [done|].
    by apply elem_of_map_to_list.
Qed.

(** C9. A cleanup pass deletes exactly the entries of the data namespace
    whose capture time is more than seven days before [now]: an entry
    captured at [now] minus seven days and one second goes, an entry
    captured at [now] minus six days stays, as it was. *)
Theorem cleanup_retention_window (now : Z) (w : World) (key : string) (r : Response) :
  the_cache DATA_CACHE_NAME w !! key = Some r ->
  let after := the_cache DATA_CACHE_NAME (exec (cleanupOldCache Date_parse now) w) in
  (after !! key = None <->
     exists t, capture_timestamp Date_parse r = Some t /\
               now - t > 7 * 24 * 60 * 60 * 1000) /\
  (after !! key = None \/ after !! key = Some r) /\
  (capture_timestamp Date_parse r = Some (now - 7 * 24 * 60 * 60 * 1000 - 1000) ->
     after !! key = None) /\
  (capture_timestamp Date_parse r = Some (now - 6 * 24 * 60 * 60 * 1000) ->
     after !! key = Some r).
Proof.
  intros Hk. cbv zeta. rewrite cleanupOldCache_lookup, Hk.
  rewrite expired_capture_timestamp. unfold maxAge.
  destruct (capture_timestamp Date_parse r) as [t|].
  - destruct (Z.gtb_spec (now - t) (7 * 24 * 60 * 60 * 1000)) as [Hold|Hyoung].
    + split; [|split; [|split]].
      * split; [|done]. intros _. exists t. split; [done|lia].
      * by left.
      * done.
      * intros [= ->]. lia.
    + split; [|split; [|split]].
      * split; [done|]. intros (t' & [= <-] & ?). lia.
      * by right.
      * intros [= ->]. lia.
      * done.
  - split; [|split; [|split]]; try done.
    + split; [done|]. by intros (t & ? & _).
    + by right.
Qed.

(** The response [cacheFormData] stores has no [date] header. *)
Lemma cacheFormData_response_no_date (payload : Json) :
  headers_get "date" (headers (new_Response (JSON_stringify payload) no_init)) = None.
Proof. done. Qed.

Lemma cleanup_passes_keep (times : list Z) (w : World) (key : string) (r : Response) :
  the_cache DATA_CACHE_NAME w !! key = Some r ->
  headers_get "date" (headers r) = None ->
  the_cache DATA_CACHE_NAME (exec (cleanup_passes Date_parse times) w) !! key = Some r.
Proof.
  revert w. induction times as [|now times IH]; intros w Hk Hd; simpl cleanup_passes.
  - by rewrite exec_ret.
  - rewrite exec_bind. apply IH; [|done].
    rewrite cleanupOldCache_lookup, Hk. unfold expired. by rewrite Hd.
Qed.

(** C10. A cleanup pass deletes an entry of the data namespace only when
    its stored response has a [date] header: an entry without one stays
    through every pass, whatever the time of the pass. The entries of
    [CACHE_FORM_DATA] are such entries: the response built for them has
    no [date] header, so they are never cleaned up. *)
Theorem cleanup_needs_date_header (w : World) (key : string) (r : Response) :
  the_cache DATA_CACHE_NAME w !! key = Some r ->
  (forall now,
     the_cache DATA_CACHE_NAME (exec (cleanupOldCache Date_parse now) w) !! key = None ->
     exists d, headers_get "date" (headers r) = Some d) /\
  (headers_get "date" (headers r) = None ->
   forall times,
     the_cache DATA_CACHE_NAME (exec (cleanup_passes Date_parse times) w) !! key
       = Some r) /\
  (forall payload now random times,
     let stored := "form-" +:+ pretty now +:+ "-" +:+ random in
     the_cache DATA_CACHE_NAME
       (exec (cleanup_passes Date_parse times)
          (exec (cacheFormData JSON_stringify payload now random) w)) !! stored
       = Some (new_Response (JSON_stringify payload) no_init)).
Proof.
  intros Hk. split; [|split].
  - intros now. rewrite cleanupOldCache_lookup, Hk. unfold expired.
    destruct (headers_get "date" (headers r)) as [d|]; [by exists d|done].
  - intros Hd times. by apply cleanup_passes_keep.
  - intros payload now random times. cbv zeta.
    apply cleanup_passes_keep; [|done].
    rewrite exec_cacheFormData, the_cache_put_eq by done.
    by rewrite lookup_insert_eq.
Qed.



(** *** Install, when the population succeeds *)

Lemma eval_fetch_all (urls : list string) (w : World) :
  eval (fetch_all network urls) w =
  imap (fun i u => network (length (fetch_log w) + i) (get_request u)) urls.
Proof.
  revert w. induction urls as [|u urls IH]; intros w; simpl fetch_all; [done|].
  step. rewrite IH, imap_cons. rewrite Nat.add_0_r. f_equal.
  apply imap_ext. intros i x _. simpl. rewrite length_app. simpl.
  f_equal. clear. lia.
Qed.

Lemma caches_cache_put_ne (cache key : string) (r : Response) (ns : string) (w : World) :
  cache ≠ ns -> caches (exec (cache_put cache key r) w) !! ns = caches w !! ns.
Proof.
  intros. unfold exec, cache_put.
  destruct (cache_accepts r); simpl; [|done]. by rewrite lookup_insert_ne.
Qed.

Lemma the_cache_put_other_key (cache key k : string) (r : Response) (w : World) :
  key ≠ k ->
  the_cache cache (exec (cache_put cache key r) w) !! k = the_cache cache w !! k.
Proof.
  intros Hne. destruct (cache_accepts r) eqn:Hr.
  - by rewrite the_cache_put_eq, lookup_insert_ne.
  - by rewrite exec_cache_put_refused.
Qed.

Lemma put_all_other_namespace (cache : string) (entries : list (string * FetchResult))
    (ns : string) (w : World) :
  cache ≠ ns ->
  caches (exec (put_all cache entries) w) !! ns = caches w !! ns.
Proof.
  intros Hne. revert w. induction entries as [|[u a] entries IH]; intros w;
    simpl put_all; [done|].
  destruct a as [r|]; [|by apply IH].
  by rewrite exec_bind, exec_unawaited, IH, caches_cache_put_ne.
Qed.

Lemma put_all_lookup_absent (cache : string) (entries : list (string * FetchResult))
    (k : string) (w : World) :
  k ∉ entries.*1 ->
  the_cache cache (exec (put_all cache entries) w) !! k = the_cache cache w !! k.
Proof.
  revert w. induction entries as [|[u a] entries IH]; intros w Hk; simpl put_all; [done|].
  simpl in Hk. apply not_elem_of_cons in Hk as [Hne Hk].
  destruct a as [r|]; [|by apply IH].
  by rewrite exec_bind, exec_unawaited, IH, the_cache_put_other_key.
Qed.

Lemma put_all_lookup_present (cache : string) (entries : list (string * FetchResult))
    (k : string) (r : Response) (w : World) :
  NoDup entries.*1 -> (k, Resolves r) ∈ entries -> cache_accepts r = true ->
  the_cache cache (exec (put_all cache entries) w) !! k = Some r.
Proof.
  revert w. induction entries as [|[u a] entries IH]; intros w Hnd Hin Hacc;
    simpl put_all.
  - by apply elem_of_nil in Hin.
  - simpl in Hnd. apply NoDup_cons in Hnd as [Hu Hnd].
    apply elem_of_cons in Hin as [[= <- <-]|Hin].
    + rewrite exec_bind, exec_unawaited, put_all_lookup_absent by done.
      by rewrite the_cache_put_eq, lookup_insert_eq.
    + destruct a as [r'|]; [|by apply IH].
      rewrite exec_bind. by apply IH.
Qed.

Lemma exec_put_all_frame (cache : string) (entries : list (string * FetchResult))
    (w : World) :
  let w' := exec (put_all cache entries) w in
  fetch_log w' = fetch_log w /\ skip_waiting w' = skip_waiting w /\
  indexedDB w' = indexedDB w /\ notifications w' = notifications w.
Proof.
  revert w. induction entries as [|[u a] entries IH]; intros w; simpl put_all; [done|].
  destruct a as [r|]; [|by apply IH].
  cbv zeta. rewrite exec_bind, exec_unawaited.
  destruct (IH (exec (cache_put cache u r) w)) as (-> & -> & -> & ->).
  unfold exec, cache_put. by destruct (cache_accepts r).
Qed.

Lemma install_success_facts (w : World) :
  (forall i u, CORE_CACHE_FILES !! i = Some u ->
     fetched_storable (network (length (fetch_log w) + i) (get_request u)) = true) ->
  let w' := exec (install_listener network) w in
  eval (install_listener network) w = Fulfilled tt /\
  skip_waiting w' = true /\
  (install_event network w).1 = Activating /\
  (forall i u r, CORE_CACHE_FILES !! i = Some u ->
     network (length (fetch_log w) + i) (get_request u) = Resolves r ->
     the_cache CACHE_NAME w' !! u = Some r) /\
  (forall k, k ∉ CORE_CACHE_FILES ->
     the_cache CACHE_NAME w' !! k = the_cache CACHE_NAME w !! k) /\
  (forall ns, ns ≠ CACHE_NAME -> caches w' !! ns = caches w !! ns).
Proof.
  intros Hall. cbv zeta.
  set (w1 := exec (caches_open CACHE_NAME) w).
  assert (Hlog : fetch_log w1 = fetch_log w) by apply fetch_log_caches_open.
  set (results := eval (fetch_all network CORE_CACHE_FILES) w1).
  assert (Hres : results =
    imap (fun i u => network (length (fetch_log w) + i) (get_request u)) CORE_CACHE_FILES).
  { unfold results. by rewrite eval_fetch_all, Hlog. }
  assert (Hok : forallb fetched_storable results = true).
  { apply forallb_forall. intros a Ha.
    apply list_elem_of_In, list_elem_of_lookup in Ha as [i Hi].
    rewrite Hres, list_lookup_imap in Hi.
    destruct (CORE_CACHE_FILES !! i) as [u|] eqn:Hu; [|done]. injection Hi as <-.
    by apply Hall. }
  set (w2 := exec (fetch_all network CORE_CACHE_FILES) w1).
  set (w3 := exec (put_all CACHE_NAME (zip CORE_CACHE_FILES results)) w2).
  assert (Hrun : install_listener network w = (Fulfilled tt, set_skip_waiting true w3)).
  { rewrite (surjective_pairing (install_listener network w)).
    change ((install_listener network w).1) with (eval (install_listener network) w).
    change ((install_listener network w).2) with (exec (install_listener network) w).
    unfold install_listener, promise_catch, promise_then, cache_addAll. step.
    fold w1. fold results. rewrite Hok. step. done. }
  assert (Hcache : forall ns, the_cache ns w2 = the_cache ns w).
  { intros ns. unfold w2. rewrite exec_fetch_all, the_cache_set_fetch_log.
    apply the_cache_caches_open. }
  assert (Hlen : length results = length CORE_CACHE_FILES)
    by by rewrite Hres, length_imap.
  assert (Hfst : (zip CORE_CACHE_FILES results).*1 = CORE_CACHE_FILES)
    by (apply fst_zip; rewrite Hlen; done).
  destruct (exec_put_all_frame CACHE_NAME (zip CORE_CACHE_FILES results) w2)
    as (_ & Hskip & _).
  unfold install_event, eval, exec. rewrite Hrun. simpl.
  split; [done|]. split; [done|]. split; [done|]. split; [|split].
  - intros i u r Hu Hnet.
    change (the_cache CACHE_NAME (set_skip_waiting true w3))
      with (the_cache CACHE_NAME w3).
    apply put_all_lookup_present.
    + rewrite Hfst. apply NoDup_CORE_CACHE_FILES.
    + apply (elem_of_lookup_zip_with_2 pair CORE_CACHE_FILES results
               u (Resolves r) (u, Resolves r) i); [done|].
      by rewrite Hres, list_lookup_imap, Hu, <- Hnet.
    + specialize (Hall i u Hu). rewrite Hnet in Hall. simpl in Hall.
      by apply andb_true_iff in Hall as [_ ?].
  - intros k Hk.
    change (the_cache CACHE_NAME (set_skip_waiting true w3))
      with (the_cache CACHE_NAME w3).
    unfold w3. rewrite put_all_lookup_absent by by rewrite Hfst.
    by rewrite Hcache.
  - intros ns Hns. unfold w3. rewrite put_all_other_namespace by done.
    unfold w2. rewrite exec_fetch_all. simpl.
    unfold w1, exec, caches_open.
    destruct (caches w !! CACHE_NAME); simpl; [done|].
    by rewrite lookup_insert_ne.
Qed.

(** When every core file is fetched with a 2xx answer that the Cache API
    takes (not a 206, no [Vary: *]), the install promise is fulfilled,
    [skipWaiting] has been called, so the worker activates at once, and the
    core namespace holds every core file with the answer fetched for it;
    its other entries and the other namespaces are as before. *)
Theorem install_success_populates_core (w : World) :
  (forall i u, CORE_CACHE_FILES !! i = Some u ->
     fetched_storable (network (length (fetch_log w) + i) (get_request u)) = true) ->
  let w' := exec (install_listener network) w in
  eval (install_listener network) w = Fulfilled tt /\
  skip_waiting w' = true /\
  (install_event network w).1 = Activating /\
  (forall i u r, CORE_CACHE_FILES !! i = Some u ->
     network (length (fetch_log w) + i) (get_request u) = Resolves r ->
     the_cache CACHE_NAME w' !! u = Some r) /\
  (forall k, k ∉ CORE_CACHE_FILES ->
     the_cache CACHE_NAME w' !! k = the_cache CACHE_NAME w !! k) /\
  (forall ns, ns ≠ CACHE_NAME -> caches w' !! ns = caches w !! ns).
Proof.
  intros Hall. cbv zeta.
  destruct (install_success_facts w Hall) as (Hf & Hs & Hstate & Hin & Hout & Hother).
  split; [exact Hf|]. split; [exact Hs|]. split; [exact Hstate|].
  split; [exact Hin|]. split; [exact Hout|exact Hother].
Qed.


(** On a fresh instance, after an install whose four fetches come back
    with 2xx answers that the Cache API takes, [getCacheInfo] reports one
    namespace, the core one, of size four. *)
Theorem fresh_install_cache_info (w : World) :
  caches w = ∅ ->
  (forall i u, CORE_CACHE_FILES !! i = Some u ->
     fetched_storable (network (length (fetch_log w) + i) (get_request u)) = true) ->
  let info := eval getCacheInfo (exec (install_listener network) w) in
  totalCaches info = 1%nat /\
  exists d, info_caches info = [d] /\ cache_name d = CACHE_NAME /\
            cache_size d = 4%nat.
Proof.
  intros Hfresh Hall. cbv zeta.
  destruct (install_success_facts w Hall) as (_ & _ & _ & Hin & Hout & Hother).
  set (w' := exec (install_listener network) w) in *.
  assert (Hkeys : forall k, is_Some (the_cache CACHE_NAME w' !! k) <-> k ∈ CORE_CACHE_FILES).
  { intros k. split.
    - intros Hk. destruct (decide (k ∈ CORE_CACHE_FILES)) as [|Hno]; [done|].
      rewrite (Hout k Hno) in Hk. unfold the_cache in Hk.
      rewrite Hfresh, lookup_empty in Hk. simpl in Hk.
      rewrite lookup_empty in Hk. by destruct Hk.
    - intros [i Hi]%list_elem_of_lookup.
      specialize (Hall i k Hi).
      destruct (network (length (fetch_log w) + i) (get_request k)) as [r|] eqn:Hnet;
        [|done].
      exists r. by apply (Hin i). }
  destruct (caches w' !! CACHE_NAME) as [c|] eqn:Hc.
  2:{ assert (Hroot : is_Some (the_cache CACHE_NAME w' !! "/")).
      { apply Hkeys. unfold CORE_CACHE_FILES. by left. }
      unfold the_cache in Hroot. rewrite Hc in Hroot. simpl in Hroot.
      rewrite lookup_empty in Hroot. by destruct Hroot. }
  assert (Hcaches : caches w' = {[ CACHE_NAME := c ]}).
  { apply map_eq. intros ns. destruct (decide (ns = CACHE_NAME)) as [->|Hns].
    - by rewrite lookup_singleton_eq.
    - rewrite lookup_singleton_ne by done.
      by rewrite Hother, Hfresh, lookup_empty. }
  destruct (getCacheInfo_facts w') as (_ & Htotal & Hlen & _ & _ & Hdetails).
  rewrite Hcaches, map_size_singleton in Htotal.
  split; [done|].
  rewrite Htotal in Hlen.
  destruct (info_caches (eval getCacheInfo w')) as [|d [|d' rest]] eqn:Hinfo;
    [done| |done].
  exists d. split; [done|].
  destruct (Hdetails d) as (c' & Hc' & Hsize & Hitems & Hnd & Hmem); [by left|].
  assert (Hname : cache_name d = CACHE_NAME).
  { destruct (decide (cache_name d = CACHE_NAME)) as [|Hne]; [done|].
    rewrite Hcaches, lookup_singleton_ne in Hc' by done. done. }
  rewrite Hname, Hc in Hc'. injection Hc' as <-.
  assert (Hperm : items d ≡ₚ CORE_CACHE_FILES).
  { apply NoDup_Permutation; [done|apply NoDup_CORE_CACHE_FILES|].
    intros k. rewrite Hmem, <- Hkeys. unfold the_cache. by rewrite Hc. }
  split; [done|].
  rewrite Hsize, <- Hitems. by rewrite Hperm.
Qed.



(** *** Commands of the message channel *)

Lemma getCacheInfo_empty (w : World) :
  caches w = ∅ ->
  eval getCacheInfo w = {| totalCaches := 0; info_caches := [] |}.
Proof.
  intros Hw. unfold getCacheInfo. rewrite !eval_bind, eval_ret.
  change (exec caches_keys w) with w.
  assert (Hkeys : eval caches_keys w = []).
  { unfold eval, caches_keys. simpl. by rewrite Hw, map_to_list_empty. }
  by rewrite Hkeys.
Qed.

(** [CLEAR_CACHE] answers with a success and leaves no namespace, so a
    [GET_CACHE_INFO] that follows reports no cache at all. *)
Theorem clear_cache_then_info (payload payload' : Json) (now now' : Z)
    (random random' : string) (w : World) :
  let w1 := exec (message_listener JSON_stringify "CLEAR_CACHE" payload now random) w in
  eval (message_listener JSON_stringify "CLEAR_CACHE" payload now random) w
    = Some ReplySuccess /\
  caches w1 = ∅ /\
  eval (message_listener JSON_stringify "GET_CACHE_INFO" payload' now' random') w1
    = Some (ReplyCacheInfo {| totalCaches := 0; info_caches := [] |}) /\
  forall request,
    fetch_log (exec (cacheFirstStrategy network request) w1)
      = (fetch_log w ++ [request])%list.
Proof.
  cbv zeta. unfold message_listener. simpl String.eqb. cbv iota.
  rewrite !eval_bind, !exec_bind, !eval_ret, exec_ret.
  destruct (clearAllCaches_facts w) as (Hc & _ & Hlog & _).
  split; [done|]. split; [done|]. split.
  - by rewrite getCacheInfo_empty.
  - intros request. unfold cacheFirstStrategy. step.
    unfold the_cache at 1. rewrite Hc, lookup_empty. simpl. rewrite lookup_empty.
    step. rewrite Hlog.
    destruct (network (length (fetch_log w)) request) as [r|]; step; [|done].
    destruct (ok r); step; [|done].
    by rewrite fetch_log_cache_put.
Qed.

(** A message whose type is none of the four commands changes nothing and
    gets no reply. *)
Lemma message_listener_unknown (type : string) (payload : Json) (now : Z)
    (random : string) (w : World) :
  type ≠ "SKIP_WAITING" -> type ≠ "CACHE_FORM_DATA" ->
  type ≠ "GET_CACHE_INFO" -> type ≠ "CLEAR_CACHE" ->
  message_listener JSON_stringify type payload now random w = (None, w).
Proof.
  intros H1 H2 H3 H4. unfold message_listener.
  apply String.eqb_neq in H1, H2, H3, H4. by rewrite H1, H2, H3, H4.
Qed.

(** *** The strategies, state by state *)

Lemma beside_caches_open (name : string) (w : World) :
  beside_caches (exec (caches_open name) w) = beside_caches w.
Proof. unfold exec, caches_open. by destruct (caches w !! name). Qed.

Lemma networkFirst_world (request : Request) (w : World) :
  exec (networkFirstStrategy JSON_stringify network request) w =
  let w1 := set_fetch_log (fetch_log w ++ [request])%list
              (exec (caches_open DATA_CACHE_NAME) w) in
  match network (length (fetch_log w)) request with
  | Resolves r =>
      if ok r then exec (cache_put DATA_CACHE_NAME (url request) r) w1 else w1
  | Rejects => w1
  end.
Proof.
  unfold networkFirstStrategy. cbv zeta. step.
  destruct (network (length (fetch_log w)) request) as [r|]; step.
  - by destruct (ok r); step.
  - by destruct (the_cache DATA_CACHE_NAME w !! url request).
Qed.

Lemma documentStrategy_world (request : Request) (w : World) :
  exec (documentStrategy getOfflineHTML network request) w =
  let w1 := set_fetch_log (fetch_log w ++ [request])%list
              (exec (caches_open CACHE_NAME) w) in
  match network (length (fetch_log w)) request with
  | Resolves r =>
      if ok r then exec (cache_put CACHE_NAME (url request) r) w1 else w1
  | Rejects => w1
  end.
Proof.
  unfold documentStrategy. cbv zeta. step.
  destruct (network (length (fetch_log w)) request) as [r|]; step.
  - destruct (ok r); step; [done|]. by rewrite documentStrategy_catch_world.
  - by rewrite documentStrategy_catch_world.
Qed.

Lemma cacheFirst_world (request : Request) (w : World) :
  exec (cacheFirstStrategy network request) w =
  let w0 := exec (caches_open CACHE_NAME) w in
  match the_cache CACHE_NAME w !! url request with
  | Some _ => w0
  | None =>
      let w1 := set_fetch_log (fetch_log w ++ [request])%list w0 in
      match network (length (fetch_log w)) request with
      | Resolves r =>
          if ok r then exec (cache_put CACHE_NAME (url request) r) w1 else w1
      | Rejects => w1
      end
  end.
Proof.
  unfold cacheFirstStrategy. cbv zeta. step.
  destruct (the_cache CACHE_NAME w !! url request); step; [done|].
  destruct (network (length (fetch_log w)) request) as [r|]; step; [|done].
  by destruct (ok r); step.
Qed.

(** *** The router *)

(** The [fetch] listener leaves a request that is not a [GET] alone; a
    [GET] whose URL holds [/api/] or [form-data] goes to Network-First,
    whatever its destination; another [GET] goes to Document-with-Fallback
    when its destination is [document], and to Cache-First otherwise. *)
Theorem fetch_listener_routes (request : Request) (w : World) :
  (method request ≠ "GET" ->
     fetch_listener JSON_stringify getOfflineHTML network request w = (None, w)) /\
  (method request = "GET" ->
     (substring_of "/api/" (url request) \/ substring_of "form-data" (url request) ->
        fetch_listener JSON_stringify getOfflineHTML network request w =
        (Some (JsResponse (eval (networkFirstStrategy JSON_stringify network request) w)),
         exec (networkFirstStrategy JSON_stringify network request) w)) /\
     (~ substring_of "/api/" (url request) -> ~ substring_of "form-data" (url request) ->
        (destination request = "document" ->
           fetch_listener JSON_stringify getOfflineHTML network request w =
           (Some (eval (documentStrategy getOfflineHTML network request) w),
            exec (documentStrategy getOfflineHTML network request) w)) /\
        (destination request ≠ "document" ->
           fetch_listener JSON_stringify getOfflineHTML network request w =
           (Some (JsResponse (eval (cacheFirstStrategy network request) w)),
            exec (cacheFirstStrategy network request) w)))).
Proof.
  assert (Hpair : forall (A B : Type) (m : M A) (f : A -> B),
    bind m (fun a => ret (f a)) w = (f (eval m w), exec m w)).
  { intros A B m f. unfold bind, ret, eval, exec. by destruct (m w). }
  split.
  - apply fetch_listener_skips_non_GET.
  - intros Hget. unfold fetch_listener.
    apply String.eqb_eq in Hget. rewrite Hget. cbn [negb].
    split.
    + intros Hsub.
      assert (Hinc : includes "/api/" (url request) || includes "form-data" (url request)
                     = true).
      { apply orb_true_iff. by rewrite !includes_substring_of. }
      rewrite Hinc. apply (Hpair _ _ _ (fun r => Some (JsResponse r))).
    + intros Hapi Hform.
      assert (Hinc : includes "/api/" (url request) || includes "form-data" (url request)
                     = false).
      { apply orb_false_iff. split; apply not_true_iff_false;
          by rewrite includes_substring_of. }
      rewrite Hinc. split.
      * intros Hdoc. apply String.eqb_eq in Hdoc. rewrite Hdoc.
        apply (Hpair _ _ _ Some).
      * intros Hdoc. apply String.eqb_neq in Hdoc. rewrite Hdoc.
        apply (Hpair _ _ _ (fun r => Some (JsResponse r))).
Qed.

(** Handling one request costs at most one fetch, of that very request,
    and touches neither the database nor the notifications nor the
    [skipWaiting] flag. *)
Theorem fetch_listener_single_fetch (request : Request) (w : World) :
  let w' := exec (fetch_listener JSON_stringify getOfflineHTML network request) w in
  (fetch_log w' = fetch_log w \/ fetch_log w' = (fetch_log w ++ [request])%list) /\
  beside_caches w' = beside_caches w.
Proof.
  cbv zeta. unfold fetch_listener.
  destruct (negb (String.eqb (method request) "GET")); [by split; [left|]|].
  destruct (includes "/api/" (url request) || includes "form-data" (url request)).
  { rewrite exec_bind, exec_ret, networkFirst_world. cbv zeta.
    pose proof (beside_caches_open DATA_CACHE_NAME w) as Hb.
    destruct (network (length (fetch_log w)) request) as [r|];
      [destruct (ok r)|];
      rewrite ?fetch_log_cache_put, ?beside_caches_cache_put;
      (split; [by right|exact Hb]). }
  destruct (String.eqb (destination request) "document").
  { rewrite exec_bind, exec_ret, documentStrategy_world. cbv zeta.
    pose proof (beside_caches_open CACHE_NAME w) as Hb.
    destruct (network (length (fetch_log w)) request) as [r|];
      [destruct (ok r)|];
      rewrite ?fetch_log_cache_put, ?beside_caches_cache_put;
      (split; [by right|exact Hb]). }
  rewrite exec_bind, exec_ret, cacheFirst_world. cbv zeta.
  pose proof (beside_caches_open CACHE_NAME w) as Hb.
  pose proof (fetch_log_caches_open CACHE_NAME w) as Hl.
  destruct (the_cache CACHE_NAME w !! url request); [by split; [left|]|].
  destruct (network (length (fetch_log w)) request) as [r|];
    [destruct (ok r)|];
    rewrite ?fetch_log_cache_put, ?beside_caches_cache_put;
    (split; [by right|exact Hb]).
Qed.

(** A cache writer changes at most the entry of its own key in its own
    namespace, and nothing beside the caches. *)
Theorem writer_touches_one_entry (op : CacheWriter) (w : World) (ns key : string) :
  let w' := exec (run_writer JSON_stringify getOfflineHTML network op) w in
  ((ns, key) ≠ writer_target op -> the_cache ns w' !! key = the_cache ns w !! key) /\
  beside_caches w' = beside_caches w.
Proof.
  cbv zeta.
  assert (Hput : forall cache k r w1,
    (ns, key) ≠ (cache, k) ->
    the_cache ns (exec (cache_put cache k r) w1) !! key = the_cache ns w1 !! key).
  { intros cache k r w1 Hne.
    destruct (cache_accepts r) eqn:Hr; [|by rewrite exec_cache_put_refused].
    destruct (decide (cache = ns)) as [->|Hns].
    - rewrite the_cache_put_eq, lookup_insert_ne; [done| |done]. by intros ->.
    - by rewrite the_cache_put_ne. }
  destruct op as [request|request|request|payload now random]; simpl writer_target;
    unfold run_writer; rewrite ?exec_bind, ?exec_ret.
  - rewrite networkFirst_world. cbv zeta.
    pose proof (beside_caches_open DATA_CACHE_NAME w) as Hb.
    destruct (network (length (fetch_log w)) request) as [r|];
      [destruct (ok r)|]; rewrite ?beside_caches_cache_put;
      (split; [intros Hne|exact Hb]);
      rewrite ?Hput by done; by step.
  - rewrite documentStrategy_world. cbv zeta.
    pose proof (beside_caches_open CACHE_NAME w) as Hb.
    destruct (network (length (fetch_log w)) request) as [r|];
      [destruct (ok r)|]; rewrite ?beside_caches_cache_put;
      (split; [intros Hne|exact Hb]);
      rewrite ?Hput by done; by step.
  - rewrite cacheFirst_world. cbv zeta.
    pose proof (beside_caches_open CACHE_NAME w) as Hb.
    destruct (the_cache CACHE_NAME w !! url request);
      [|destruct (network (length (fetch_log w)) request) as [r|];
        [destruct (ok r)|]]; rewrite ?beside_caches_cache_put;
      (split; [intros Hne|exact Hb]);
      rewrite ?Hput by done; by step.
  - rewrite exec_cacheFormData.
    pose proof (beside_caches_open DATA_CACHE_NAME w) as Hb.
    rewrite beside_caches_cache_put.
    split; [intros Hne|exact Hb]. rewrite Hput by done. by step.
Qed.


(** *** Round trips through the caches *)



(** When the core namespace holds the offline page, a navigation always
    gets a response: the live one when it is 2xx, else the stored entry of
    the request, else the offline page. *)
Theorem document_with_offline_page (request : Request) (page : Response) (w : World) :
  the_cache CACHE_NAME w !! OFFLINE_URL = Some page ->
  (exists r, eval (documentStrategy getOfflineHTML network request) w = JsResponse r) /\
  (fetched_ok (network (length (fetch_log w)) request) = false ->
   the_cache CACHE_NAME w !! url request = None ->
   eval (documentStrategy getOfflineHTML network request) w = JsResponse page).
Proof.
  intros Hpage. rewrite documentStrategy_answer. cbv zeta. rewrite Hpage.
  unfold fetched_ok. split.
  - destruct (network (length (fetch_log w)) request) as [r|];
      [destruct (ok r); [by exists r|]|];
      (destruct (the_cache CACHE_NAME w !! url request) as [c|];
       [by exists c|by exists page]).
  - intros Hbad Hmiss. rewrite Hmiss.
    destruct (network (length (fetch_log w)) request) as [r|]; [|done].
    by rewrite Hbad.
Qed.

(** Cache-First never replaces or drops an entry of the core namespace;
    an answer whose status is not 2xx is handed back as it came and is not
    stored. *)
Theorem cacheFirst_keeps_entries (request : Request) (w : World) :
  let w' := exec (cacheFirstStrategy network request) w in
  (forall k r, the_cache CACHE_NAME w !! k = Some r ->
     the_cache CACHE_NAME w' !! k = Some r) /\
  (forall r, the_cache CACHE_NAME w !! url request = None ->
     network (length (fetch_log w)) request = Resolves r -> ok r = false ->
     eval (cacheFirstStrategy network request) w = r /\
     the_cache CACHE_NAME w' = the_cache CACHE_NAME w).
Proof.
  cbv zeta. rewrite cacheFirst_world. cbv zeta. split.
  - intros k r Hk.
    destruct (the_cache CACHE_NAME w !! url request) as [c|] eqn:Hreq; [by step|].
    destruct (network (length (fetch_log w)) request) as [resp|];
      [destruct (ok resp)|]; try by step.
    rewrite the_cache_put_other_key; [by step|]. intros <-. congruence.
  - intros r Hmiss Hnet Hok. rewrite Hmiss, Hnet, Hok. split; [|by step].
    unfold cacheFirstStrategy. step. rewrite Hmiss. step. rewrite Hnet. by step.
Qed.

(** After a miss that fetched a 2xx answer the Cache API takes (no status
    206, no [Vary: *]), the same request is served from the cache: two
    calls, one fetch, the same response. *)
Theorem cacheFirst_second_call_is_a_hit (request : Request) (r : Response) (w : World) :
  the_cache CACHE_NAME w !! url request = None ->
  network (length (fetch_log w)) request = Resolves r -> ok r = true ->
  cache_accepts r = true ->
  let w' := exec (cacheFirstStrategy network request) w in
  let w'' := exec (cacheFirstStrategy network request) w' in
  eval (cacheFirstStrategy network request) w' = r /\
  fetch_log w'' = (fetch_log w ++ [request])%list.
Proof.
  intros Hmiss Hnet Hok Hacc. cbv zeta.
  assert (Hw' : exec (cacheFirstStrategy network request) w =
    exec (cache_put CACHE_NAME (url request) r)
      (set_fetch_log (fetch_log w ++ [request])%list (exec (caches_open CACHE_NAME) w))).
  { by rewrite cacheFirst_world, Hmiss, Hnet, Hok. }
  rewrite Hw'.
  set (w' := exec (cache_put CACHE_NAME (url request) r) _).
  assert (Hhit : the_cache CACHE_NAME w' !! url request = Some r).
  { unfold w'. by rewrite the_cache_put_eq, lookup_insert_eq. }
  split.
  - unfold cacheFirstStrategy. step. by rewrite Hhit.
  - rewrite cacheFirst_world, Hhit. cbv zeta.
    unfold w'. by rewrite fetch_log_caches_open, fetch_log_cache_put.
Qed.


(** *** Storing a submission offline *)

Lemma insert_by_id_Permutation (r : FormRecord) (l : list FormRecord) :
  insert_by_id r l ≡ₚ r :: l.
Proof.
  induction l as [|x l IH]; simpl; [done|].
  destruct (String.ltb (id r) (id x)); [done|].
  rewrite IH. apply Permutation_swap.
Qed.

Lemma existsb_same_id (k : string) (l : list FormRecord) :
  existsb (fun f => String.eqb (id f) k) l = false <->
  forall g, g ∈ l -> id g ≠ k.
Proof.
  induction l as [|x l IH]; simpl.
  - split; [|done]. by intros _ g ?%elem_of_nil.
  - rewrite orb_false_iff, IH, String.eqb_neq. split.
    + intros [Hx Hl] g [->|Hg]%elem_of_cons; [done|by apply Hl].
    + intros Hall. split; [apply Hall; by left|]. intros g Hg. apply Hall. by right.
Qed.

Lemma storeFormOffline_run (formData : Json) (now_id : Z) (random : string)
    (now_ts : Z) (registration : Settled unit) (w : World) :
  let record :=
    {| id := "form-" +:+ pretty now_id +:+ "-" +:+ random; data := formData;
       timestamp := now_ts; form_status := "pending" |} in
  storeFormOffline formData now_id random now_ts registration w =
  (match registration with
   | Fulfilled _ => Fulfilled (id record)
   | Rejected => Rejected
   end,
   if existsb (fun f => String.eqb (id f) (id record)) (pending w)
   then exec openDB w
   else set_pending (insert_by_id record (pending w)) (exec openDB w)).
Proof.
  cbv zeta.
  unfold storeFormOffline, await_request, bind, openDB, pending_add, exec, pending,
    the_db, ret.
  destruct (indexedDB w) as [db|] eqn:Hdb; simpl; rewrite ?Hdb; simpl.
  - by destruct (existsb _ (pending_forms db)), registration.
  - by destruct registration.
Qed.

Lemma the_db_storeFormOffline (formData : Json) (now_id : Z) (random : string)
    (now_ts : Z) (registration : Settled unit) (w : World) :
  let record :=
    {| id := "form-" +:+ pretty now_id +:+ "-" +:+ random; data := formData;
       timestamp := now_ts; form_status := "pending" |} in
  the_db (exec (storeFormOffline formData now_id random now_ts registration) w) =
  if existsb (fun f => String.eqb (id f) (id record)) (pending w)
  then the_db w
  else {| pending_forms := insert_by_id record (pending w);
          completed_forms := completed_forms (the_db w) |}.
Proof.
  cbv zeta. unfold exec at 1. rewrite storeFormOffline_run. cbv zeta.
  destruct (existsb _ (pending w)); simpl; [apply pending_openDB|].
  unfold the_db at 1. simpl. by rewrite pending_openDB.
Qed.

Lemma storeFormOffline_frame (formData : Json) (now_id : Z) (random : string)
    (now_ts : Z) (registration : Settled unit) (w : World) :
  let w' := exec (storeFormOffline formData now_id random now_ts registration) w in
  caches w' = caches w /\ fetch_log w' = fetch_log w /\
  notifications w' = notifications w /\ skip_waiting w' = skip_waiting w.
Proof.
  cbv zeta. unfold exec at 1 2 3 4. rewrite storeFormOffline_run. cbv zeta.
  assert (Hopen : caches (exec openDB w) = caches w /\
                  fetch_log (exec openDB w) = fetch_log w /\
                  notifications (exec openDB w) = notifications w /\
                  skip_waiting (exec openDB w) = skip_waiting w).
  { unfold exec, openDB. by destruct (indexedDB w). }
  by destruct (existsb _ (pending w)).
Qed.

(** A submission stored under a key that is not taken is added to
    [pending-forms] as one record, with the payload, the timestamp and the
    status [pending]; the records that were there stay, the store stays in
    key order, and nothing else changes. *)
Theorem storeFormOffline_adds_one_record (formData : Json) (now_id : Z)
    (random : string) (now_ts : Z) (registration : Settled unit) (w : World) :
  let record :=
    {| id := "form-" +:+ pretty now_id +:+ "-" +:+ random; data := formData;
       timestamp := now_ts; form_status := "pending" |} in
  let w' := exec (storeFormOffline formData now_id random now_ts registration) w in
  (forall g, g ∈ pending w -> id g ≠ id record) ->
  pending w' ≡ₚ record :: pending w /\
  (key_ordered (pending w) = true -> key_ordered (pending w') = true) /\
  completed_forms (the_db w') = completed_forms (the_db w) /\
  caches w' = caches w /\ fetch_log w' = fetch_log w /\
  notifications w' = notifications w.
Proof.
  cbv zeta. intros Hfresh.
  destruct (storeFormOffline_frame formData now_id random now_ts registration w)
    as (Hc & Hl & Hn & _).
  apply existsb_same_id in Hfresh.
  assert (Hdb := the_db_storeFormOffline formData now_id random now_ts registration w).
  cbv zeta in Hdb. rewrite Hfresh in Hdb.
  assert (Hp : pending (exec (storeFormOffline formData now_id random now_ts registration) w) =
    insert_by_id
      {| id := "form-" +:+ pretty now_id +:+ "-" +:+ random; data := formData;
         timestamp := now_ts; form_status := "pending" |} (pending w))
    by (unfold pending at 1; by rewrite Hdb).
  rewrite Hp, Hdb. simpl.
  split; [apply insert_by_id_Permutation|].
  split; [|done].
  intros Hord. by apply key_ordered_insert_by_id.
Qed.

(** A submission whose key is taken already changes nothing in the
    database: the record that is there is not overwritten. *)
Theorem storeFormOffline_never_overwrites (formData : Json) (now_id : Z)
    (random : string) (now_ts : Z) (registration : Settled unit) (w : World)
    (g : FormRecord) :
  g ∈ pending w ->
  id g = "form-" +:+ pretty now_id +:+ "-" +:+ random ->
  let w' := exec (storeFormOffline formData now_id random now_ts registration) w in
  the_db w' = the_db w /\ g ∈ pending w'.
Proof.
  intros Hg Hid. cbv zeta.
  assert (Htaken : existsb (fun f => String.eqb (id f)
      ("form-" +:+ pretty now_id +:+ "-" +:+ random)) (pending w) = true).
  { apply not_false_iff_true. intros Hno.
    apply (proj1 (existsb_same_id _ _) Hno g Hg Hid). }
  assert (Hdb : the_db (exec (storeFormOffline formData now_id random now_ts registration) w)
                = the_db w).
  { rewrite the_db_storeFormOffline. cbv zeta. simpl id. by rewrite Htaken. }
  split; [done|]. unfold pending. by rewrite Hdb.
Qed.


(** *** More on the periodic cleanup *)

Lemma expired_later (now now' : Z) (r : Response) :
  now <= now' -> expired Date_parse now r = true -> expired Date_parse now' r = true.
Proof.
  intros Hle. unfold expired.
  destruct (headers_get "date" (headers r)) as [d|]; [|done].
  destruct (truthy_string d); [|done]. simpl.
  destruct (Date_parse d) as [t|]; [|done].
  rewrite !Z.gtb_gt. clear -Hle. lia.
Qed.

(** A pass at a later time does all that an earlier pass did: running
    both leaves the data namespace as the later pass alone would; in
    particular a second pass at the same time changes nothing. *)
Theorem cleanup_later_pass_subsumes (now now' : Z) (w : World) :
  now <= now' ->
  the_cache DATA_CACHE_NAME
    (exec (cleanupOldCache Date_parse now') (exec (cleanupOldCache Date_parse now) w)) =
  the_cache DATA_CACHE_NAME (exec (cleanupOldCache Date_parse now') w).
Proof.
  intros Hle. apply map_eq. intros k. rewrite !cleanupOldCache_lookup.
  destruct (the_cache DATA_CACHE_NAME w !! k) as [r|]; [|done].
  destruct (expired Date_parse now r) eqn:Hnow; [|done].
  by rewrite (expired_later now now' r Hle Hnow).
Qed.

(** An entry whose [date] header is empty or does not parse is kept by
    every pass, like an entry that has none. *)
Theorem cleanup_keeps_unreadable_dates (times : list Z) (w : World) (key : string)
    (r : Response) :
  the_cache DATA_CACHE_NAME w !! key = Some r ->
  capture_timestamp Date_parse r = None ->
  the_cache DATA_CACHE_NAME (exec (cleanup_passes Date_parse times) w) !! key = Some r.
Proof.
  revert w. induction times as [|now times IH]; intros w Hk Hd; simpl cleanup_passes.
  - by rewrite exec_ret.
  - rewrite exec_bind. apply IH; [|done].
    by rewrite cleanupOldCache_lookup, Hk, expired_capture_timestamp, Hd.
Qed.

Lemma cleanup_one_world (cache : string) (now : Z) (k : string) (w : World) :
  exec (cleanup_one Date_parse cache now k) w = w \/
  exec (cleanup_one Date_parse cache now k) w = exec (cache_delete cache k) w.
Proof.
  unfold cleanup_one. step.
  destruct (the_cache cache w !! k) as [r|]; [|by left].
  destruct (headers_get "date" (headers r)) as [d|]; [|by left].
  destruct (truthy_string d); [|by left].
  destruct (Date_parse d) as [t|]; [|by left].
  destruct (now - t >? maxAge); [by right|by left].
Qed.

Lemma cleanup_loop_frame (cache : string) (now : Z) (ks : list string) (w : World)
    (ns : string) :
  let w' := exec (for_of_try ks (cleanup_one Date_parse cache now)) w in
  (cache ≠ ns -> caches w' !! ns = caches w !! ns) /\
  beside_caches w' = beside_caches w /\ fetch_log w' = fetch_log w.
Proof.
  cbv zeta. revert w. induction ks as [|k ks IH]; intros w; simpl for_of_try; [done|].
  rewrite exec_bind.
  assert (Hone : (cache ≠ ns ->
      caches (exec (cleanup_one Date_parse cache now k) w) !! ns = caches w !! ns) /\
    beside_caches (exec (cleanup_one Date_parse cache now k) w) = beside_caches w /\
    fetch_log (exec (cleanup_one Date_parse cache now k) w) = fetch_log w).
  { destruct (cleanup_one_world cache now k w) as [->| ->]; [done|].
    split; [|done]. intros Hne. unfold exec, cache_delete. simpl.
    by rewrite lookup_insert_ne. }
  destruct Hone as (Hc & Hb & Hl).
  destruct (eval (cleanup_one Date_parse cache now k) w).
  - destruct (IH (exec (cleanup_one Date_parse cache now k) w)) as (IHc & IHb & IHl).
    split; [|by rewrite IHb, IHl].
    intros Hne. by rewrite IHc, Hc.
  - by rewrite exec_ret.
Qed.

(** A [periodicsync] event, whatever its tag: the pass it may start runs
    to its end, adds no entry, leaves every entry it keeps as it was, and
    touches no namespace but the data one, nor the fetch log, the database
    or the notifications; with a tag other than [cleanup-cache] nothing
    changes at all. *)
Theorem periodicsync_only_prunes_data (event_tag : string) (now : Z) (w : World) :
  let w' := exec (periodicsync_listener Date_parse event_tag now) w in
  eval (cleanupOldCache Date_parse now) w = true /\
  (forall k, the_cache DATA_CACHE_NAME w' !! k = None \/
             the_cache DATA_CACHE_NAME w' !! k = the_cache DATA_CACHE_NAME w !! k) /\
  (forall ns, ns ≠ DATA_CACHE_NAME -> caches w' !! ns = caches w !! ns) /\
  beside_caches w' = beside_caches w /\ fetch_log w' = fetch_log w /\
  (event_tag ≠ "cleanup-cache" -> w' = w).
Proof.
  cbv zeta. split.
  { unfold cleanupOldCache. rewrite !eval_bind, eval_caches_open.
    rewrite eval_cache_keys, exec_cache_keys.
    set (w1 := exec (caches_open DATA_CACHE_NAME) w).
    apply cleanup_loop.
    - apply NoDup_fst_map_to_list.
    - intros k Hk. apply list_elem_of_fmap in Hk as [[k' r] [-> Hin]].
      apply elem_of_map_to_list in Hin. simpl. by rewrite Hin. }
  unfold periodicsync_listener.
  destruct (String.eqb event_tag "cleanup-cache") eqn:Htag.
  - rewrite exec_bind, exec_ret. split; [|split; [|split; [|split]]].
    + intros k. rewrite cleanupOldCache_lookup.
      destruct (the_cache DATA_CACHE_NAME w !! k) as [r|]; [|by left].
      destruct (expired Date_parse now r); [by left|by right].
    + intros ns Hns. unfold cleanupOldCache.
      rewrite !exec_bind, eval_caches_open, eval_cache_keys, exec_cache_keys.
      destruct (cleanup_loop_frame DATA_CACHE_NAME now
        (map_to_list (the_cache DATA_CACHE_NAME (exec (caches_open DATA_CACHE_NAME) w))).*1
        (exec (caches_open DATA_CACHE_NAME) w) ns) as (Hc & _).
      rewrite Hc by done. unfold exec, caches_open.
      destruct (caches w !! DATA_CACHE_NAME); simpl; [done|].
      by rewrite lookup_insert_ne.
    + unfold cleanupOldCache.
      rewrite !exec_bind, eval_caches_open, eval_cache_keys, exec_cache_keys.
      destruct (cleanup_loop_frame DATA_CACHE_NAME now
        (map_to_list (the_cache DATA_CACHE_NAME (exec (caches_open DATA_CACHE_NAME) w))).*1
        (exec (caches_open DATA_CACHE_NAME) w) "") as (_ & Hb & _).
      rewrite Hb. apply beside_caches_open.
    + unfold cleanupOldCache.
      rewrite !exec_bind, eval_caches_open, eval_cache_keys, exec_cache_keys.
      destruct (cleanup_loop_frame DATA_CACHE_NAME now
        (map_to_list (the_cache DATA_CACHE_NAME (exec (caches_open DATA_CACHE_NAME) w))).*1
        (exec (caches_open DATA_CACHE_NAME) w) "") as (_ & _ & Hl).
      rewrite Hl. apply fetch_log_caches_open.
    + intros Hne. apply String.eqb_neq in Hne. congruence.
  - rewrite exec_ret. repeat split; try done. intros k. by right.
Qed.


(** *** Offline after an upgrade *)


End Properties.

(** For a navigation, an answer whose status is not 2xx counts as a
    failed fetch: the outcome is the one of a rejected fetch, in the answer
    and in the state. *)
Theorem document_non_2xx_is_failure (getOfflineHTML : string)
    (network network' : nat -> Request -> FetchResult)
    (request : Request) (r : Response) (w : World) :
  network (length (fetch_log w)) request = Resolves r -> ok r = false ->
  network' (length (fetch_log w)) request = Rejects ->
  documentStrategy getOfflineHTML network request w =
  documentStrategy getOfflineHTML network' request w.
Proof.
  intros Hnet Hok Hdown.
  rewrite (surjective_pairing (documentStrategy getOfflineHTML network request w)).
  rewrite (surjective_pairing (documentStrategy getOfflineHTML network' request w)).
  f_equal.
  - change (eval (documentStrategy getOfflineHTML network request) w =
            eval (documentStrategy getOfflineHTML network' request) w).
    rewrite !documentStrategy_answer. cbv zeta. by rewrite Hnet, Hok, Hdown.
  - change (exec (documentStrategy getOfflineHTML network request) w =
            exec (documentStrategy getOfflineHTML network' request) w).
    rewrite !documentStrategy_world. cbv zeta. by rewrite Hnet, Hok, Hdown.
Qed.

(** ** The properties on the sample inputs *)

(** C5, as stated, fails: on a miss, a range request answered with status
    206 gets that answer, which is a 2xx response, and the namespace holds
    no entry for the request afterwards: the Cache API refuses a partial
    response, and the strategy does not wait for the [put]. *)
Lemma cacheFirst_partial_not_stored :
  let request := Sample.ranged "/intro.mp4" in
  let w := Sample.warm_world in
  let w' := exec (cacheFirstStrategy Sample.net_206 request) w in
  the_cache CACHE_NAME w !! url request = None /\
  Sample.net_206 (length (fetch_log w)) request = Resolves (Sample.response 206 "part") /\
  ok (Sample.response 206 "part") = true /\
  eval (cacheFirstStrategy Sample.net_206 request) w = Sample.response 206 "part" /\
  fetch_log w' = [request] /\
  the_cache CACHE_NAME w' !! url request = None /\
  the_cache CACHE_NAME w' = the_cache CACHE_NAME w.
Proof. cbv zeta. repeat split; vm_compute; reflexivity. Qed.

(** Cache-First on a warm cache with the network down, on a miss with the
    network up, and on a miss with the network down. *)
Lemma cacheFirst_hit_miss_witness :
  (eval (cacheFirstStrategy Sample.net_down (Sample.asset "/app.js")) Sample.warm_world
     = Sample.response 200 "js" /\
   fetch_log (exec (cacheFirstStrategy Sample.net_down (Sample.asset "/app.js"))
                Sample.warm_world) = []) /\
  (eval (cacheFirstStrategy Sample.net_ok (Sample.asset "/style.css")) Sample.warm_world
     = Sample.response 200 "ok" /\
   the_cache CACHE_NAME
     (exec (cacheFirstStrategy Sample.net_ok (Sample.asset "/style.css"))
        Sample.warm_world) !! "/style.css" = Some (Sample.response 200 "ok")) /\
  status (eval (cacheFirstStrategy Sample.net_down (Sample.asset "/style.css"))
            Sample.warm_world) = 404.
Proof.
  split; [|split].
  - apply (proj1 (cacheFirst_hit_miss Sample.net_down (Sample.asset "/app.js")
                    Sample.warm_world)).
    vm_compute. reflexivity.
  - destruct (proj1 (proj2 (cacheFirst_hit_miss Sample.net_ok
                (Sample.asset "/style.css") Sample.warm_world))
                (Sample.response 200 "ok")) as (Ha & _ & Hc & _).
    + vm_compute. reflexivity.
    + reflexivity.
    + reflexivity.
    + split; [exact Ha|apply Hc; reflexivity].
  - apply (proj2 (proj2 (cacheFirst_hit_miss Sample.net_down
             (Sample.asset "/style.css") Sample.warm_world))).
    + vm_compute. reflexivity.
    + reflexivity.
Defined.

(** Network-First with the network down: the stored response for a known
    request, the 503 response for an unknown one. *)
Lemma networkFirst_fallback_witness :
  eval (networkFirstStrategy Sample.stringify Sample.net_down (Sample.asset "/api/forms"))
       Sample.data_world = Sample.dated "t0" "[]" /\
  status (eval (networkFirstStrategy Sample.stringify Sample.net_down
                  (Sample.asset "/api/other")) Sample.data_world) = 503 /\
  eval (networkFirstStrategy Sample.stringify Sample.net_500 (Sample.asset "/api/forms"))
       Sample.data_world = Sample.response 500 "oops".
Proof.
  split; [|split].
  - apply (proj1 (proj1 (networkFirst_fallback Sample.stringify Sample.net_down
             (Sample.asset "/api/forms") Sample.data_world) eq_refl)).
    vm_compute. reflexivity.
  - apply (proj2 (proj1 (networkFirst_fallback Sample.stringify Sample.net_down
             (Sample.asset "/api/other") Sample.data_world) eq_refl)).
    vm_compute. reflexivity.
  - apply (proj2 (networkFirst_fallback Sample.stringify Sample.net_500
             (Sample.asset "/api/forms") Sample.data_world)).
    + reflexivity.
    + reflexivity.
Defined.

(** C4, as stated, fails: with a stored response for the request and a
    live answer of status 500, Network-First hands back the 500 answer, not
    the stored response and not a 503. *)
Lemma networkFirst_returns_non_2xx :
  let request := Sample.asset "/api/forms" in
  let answer :=
    eval (networkFirstStrategy Sample.stringify Sample.net_500 request)
         Sample.data_world in
  Sample.net_500 0%nat request = Resolves (Sample.response 500 "oops") /\
  ok (Sample.response 500 "oops") = false /\
  the_cache DATA_CACHE_NAME Sample.data_world !! url request
    = Some (Sample.dated "t0" "[]") /\
  answer ≠ Sample.dated "t0" "[]" /\
  status answer ≠ 503 /\
  status answer = 500.
Proof. vm_compute. repeat split; discriminate. Qed.

(** C2: with the network down and a core namespace that holds neither the
    page nor [/offline.html], as after an install whose population failed,
    [documentStrategy] settles to [undefined]: no response at all. *)
Theorem document_fallback_undefined :
  eval (documentStrategy Sample.offline_html Sample.net_down (Sample.navigation "/"))
       Sample.empty_world = JsUndefined /\
  eval (documentStrategy Sample.offline_html Sample.net_down (Sample.navigation "/"))
       (exec (install_listener Sample.net_down) Sample.empty_world) = JsUndefined.
Proof. split; vm_compute; reflexivity. Qed.



(** A 2xx answer that Cache-First stored is found as such. *)
Lemma only_ok_responses_written_witness :
  ok (Sample.response 200 "ok") = true \/
  the_cache CACHE_NAME Sample.warm_world !! "/style.css" = Some (Sample.response 200 "ok").
Proof.
  apply (only_ok_responses_written Sample.stringify Sample.offline_html Sample.net_ok
           (CacheFirst (Sample.asset "/style.css"))).
  vm_compute. reflexivity.
Defined.

(** C1. A drain with the network restored, on a queue that holds one
    submission stored offline, whose replay the network would acknowledge:
    [await store.getAll()] hands back the request and not the records, the
    loop over it throws, and the outer [catch] ends the drain. No [POST]
    goes out, the record is still pending, no notification is shown and
    [completed-forms] holds no record. *)
Theorem drain_leaves_acknowledged_pending :
  let w := Sample.queued_world in
  let record :=
    {| id := "form-1000-k3x9"; data := JString "visit"; timestamp := 1000;
       form_status := "pending" |} in
  let w' := exec (syncFormSubmissions Sample.stringify Sample.net_ok) w in
  pending w = [record] /\
  fetched_ok (Sample.net_ok (length (fetch_log w)) (submit_request Sample.stringify record))
    = true /\
  iterator (ARequest (eval pending_getAll w)) = None /\
  fetch_log w' = [] /\
  pending w' = [record] /\
  length (pending w') ≠ 0%nat /\
  completed_forms (the_db w') = [] /\
  notifications w' = [].
Proof. cbv zeta. repeat split; vm_compute; (reflexivity || discriminate). Qed.

(** C8. A drain on a queue of two submissions, on a network that would
    fail the first delivery and acknowledge the next: the loop over what
    [await store.getAll()] hands back throws before its first turn, so no
    delivery is attempted, neither for the first entry nor for the one
    after it, and both records stay. *)
Theorem drain_attempts_no_delivery :
  let w := Sample.two_queued_world in
  let w' := exec (syncFormSubmissions Sample.stringify Sample.net_first_fails) w in
  pending w = [Sample.record_B; Sample.record_A] /\
  fetch_log w' = [] /\
  (forall f, f ∈ pending w -> submit_request Sample.stringify f ∉ fetch_log w') /\
  pending w' = pending w /\
  notifications w' = [].
Proof.
  cbv zeta. split; [reflexivity|]. split; [reflexivity|]. split.
  - intros f _ Hin. vm_compute in Hin. by apply elem_of_nil in Hin.
  - split; reflexivity.
Qed.

(** Deleting a key that is not in the store, and deleting twice. *)
Lemma removal_idempotent_witness :
  the_db (exec (pending_delete "form-0-none") Sample.two_queued_world)
    = the_db Sample.two_queued_world /\
  exec (pending_delete "form-1000-aaa")
       (exec (pending_delete "form-1000-aaa") Sample.two_queued_world)
    = exec (pending_delete "form-1000-aaa") Sample.two_queued_world.
Proof.
  destruct (removal_idempotent "form-0-none" Sample.record_B Sample.two_queued_world)
    as (Hnone & _).
  destruct (removal_idempotent "form-1000-aaa" Sample.record_B Sample.two_queued_world)
    as (_ & Htwice & _).
  split; [|exact Htwice].
  apply Hnone. intros g Hg.
  change (pending Sample.two_queued_world)
    with [Sample.record_B; Sample.record_A] in Hg.
  apply elem_of_cons in Hg as [->|Hg]; [discriminate|].
  apply elem_of_cons in Hg as [->|Hg]; [discriminate|].
  by apply elem_of_nil in Hg.
Defined.

(** With [t0] the instant 0 and [t1] one day later: a pass at seven days
    and one second deletes the entry captured at [t0]; a pass at seven days
    keeps the entry captured at [t1], six days before. *)
Lemma cleanup_retention_window_witness :
  the_cache DATA_CACHE_NAME
    (exec (cleanupOldCache Sample.date_parse 604801000) Sample.data_world) !! "/api/forms"
    = None /\
  the_cache DATA_CACHE_NAME
    (exec (cleanupOldCache Sample.date_parse 604800000) Sample.data_world) !! "/api/visits"
    = Some (Sample.dated "t1" "[]").
Proof.
  split.
  - apply (cleanup_retention_window Sample.date_parse 604801000 Sample.data_world
             "/api/forms" (Sample.dated "t0" "[]")).
    + vm_compute. reflexivity.
    + reflexivity.
  - apply (cleanup_retention_window Sample.date_parse 604800000 Sample.data_world
             "/api/visits" (Sample.dated "t1" "[]")).
    + vm_compute. reflexivity.
    + reflexivity.
Defined.

(** An entry without a [date] header stays through passes far in the
    future. *)
Lemma cleanup_needs_date_header_witness :
  the_cache CACHE_NAME Sample.warm_world !! "/app.js" = Some (Sample.response 200 "js") /\
  the_cache DATA_CACHE_NAME
    (exec (cleanup_passes Sample.date_parse [604801000; 99999999999999])
       (exec (cacheFormData Sample.stringify (JString "draft") 1000 "k3x9")
          Sample.data_world)) !! "form-1000-k3x9"
    = Some (new_Response "draft" no_init).
Proof.
  split; [vm_compute; reflexivity|].
  apply (proj2 (proj2 (cleanup_needs_date_header Sample.stringify Sample.date_parse
           Sample.data_world "/api/forms" (Sample.dated "t0" "[]") eq_refl))
           (JString "draft") 1000 "k3x9").
Defined.

(** ** The further properties on the sample inputs *)

(** Every core file served: the offline page is in the core namespace
    with the answer fetched for it, and the worker activates. *)
Lemma install_success_populates_core_witness :
  eval (install_listener Scenario.net_serves) Sample.empty_world = Fulfilled tt /\
  (install_event Scenario.net_serves Sample.empty_world).1 = Activating /\
  the_cache CACHE_NAME (exec (install_listener Scenario.net_serves) Sample.empty_world)
    !! "/offline.html" = Some (Sample.response 200 "/offline.html").
Proof.
  destruct (install_success_populates_core Scenario.net_serves Sample.empty_world)
    as (Hf & _ & Hstate & Hin & _).
  - intros i u _. reflexivity.
  - split; [exact Hf|]. split; [exact Hstate|].
    apply (Hin 3%nat "/offline.html"); reflexivity.
Defined.

Lemma fresh_install_cache_info_witness :
  totalCaches (eval getCacheInfo
                 (exec (install_listener Scenario.net_serves) Sample.empty_world)) = 1%nat.
Proof.
  apply (fresh_install_cache_info Scenario.net_serves Sample.empty_world).
  - reflexivity.
  - intros i u _. reflexivity.
Defined.

(** A POST is not intercepted; a [GET] of an API URL with the network down
    gets the 503 of Network-First. *)
Lemma fetch_listener_routes_witness :
  fetch_listener Sample.stringify Sample.offline_html Sample.net_down
    {| url := "/api/submit-form"; method := "POST"; destination := "";
       req_headers := []; req_body := Some "{}" |} Sample.empty_world
    = (None, Sample.empty_world) /\
  (fetch_listener Sample.stringify Sample.offline_html Sample.net_down
     (Sample.navigation "/api/forms") Sample.empty_world).1
    = Some (JsResponse (offline_response Sample.stringify)).
Proof.
  split.
  - apply (proj1 (fetch_listener_routes Sample.stringify Sample.offline_html
                    Sample.net_down _ Sample.empty_world)).
    discriminate.
  - rewrite (proj1 (proj2 (fetch_listener_routes Sample.stringify Sample.offline_html
               Sample.net_down (Sample.navigation "/api/forms") Sample.empty_world)
               eq_refl)).
    + reflexivity.
    + left. exists "", "forms". reflexivity.
Defined.

(** Cache-First on [/style.css] leaves the entry of [/app.js] alone. *)
Lemma writer_touches_one_entry_witness :
  the_cache CACHE_NAME
    (exec (run_writer Sample.stringify Sample.offline_html Sample.net_ok
             (CacheFirst (Sample.asset "/style.css"))) Sample.warm_world) !! "/app.js"
  = Some (Sample.response 200 "js").
Proof.
  rewrite (proj1 (writer_touches_one_entry Sample.stringify Sample.offline_html
             Sample.net_ok (CacheFirst (Sample.asset "/style.css")) Sample.warm_world
             CACHE_NAME "/app.js")).
  - vm_compute. reflexivity.
  - discriminate.
Defined.



Lemma document_with_offline_page_witness :
  eval (documentStrategy Sample.offline_html Sample.net_down (Sample.navigation "/"))
       Scenario.offline_page_world = JsResponse (Sample.response 200 "offline").
Proof.
  apply (document_with_offline_page Sample.offline_html Sample.net_down
           (Sample.navigation "/") (Sample.response 200 "offline")
           Scenario.offline_page_world).
  - vm_compute. reflexivity.
  - reflexivity.
  - vm_compute. reflexivity.
Defined.

Lemma document_non_2xx_is_failure_witness :
  documentStrategy Sample.offline_html Sample.net_500 (Sample.navigation "/")
    Scenario.offline_page_world =
  documentStrategy Sample.offline_html Sample.net_down (Sample.navigation "/")
    Scenario.offline_page_world.
Proof.
  apply (document_non_2xx_is_failure Sample.offline_html Sample.net_500 Sample.net_down
           (Sample.navigation "/") (Sample.response 500 "oops")); reflexivity.
Defined.

Lemma cacheFirst_keeps_entries_witness :
  the_cache CACHE_NAME
    (exec (cacheFirstStrategy Sample.net_ok (Sample.asset "/style.css")) Sample.warm_world)
    !! "/app.js" = Some (Sample.response 200 "js") /\
  eval (cacheFirstStrategy Sample.net_500 (Sample.asset "/style.css")) Sample.warm_world
    = Sample.response 500 "oops".
Proof.
  split.
  - apply (proj1 (cacheFirst_keeps_entries Sample.net_ok (Sample.asset "/style.css")
                    Sample.warm_world)).
    vm_compute. reflexivity.
  - apply (proj2 (cacheFirst_keeps_entries Sample.net_500 (Sample.asset "/style.css")
                    Sample.warm_world) (Sample.response 500 "oops")).
    + vm_compute. reflexivity.
    + reflexivity.
    + reflexivity.
Defined.

Lemma cacheFirst_second_call_is_a_hit_witness :
  fetch_log
    (exec (cacheFirstStrategy Scenario.net_then_down (Sample.asset "/style.css"))
       (exec (cacheFirstStrategy Scenario.net_then_down (Sample.asset "/style.css"))
          Sample.warm_world))
  = [Sample.asset "/style.css"].
Proof.
  apply (cacheFirst_second_call_is_a_hit Scenario.net_then_down
           (Sample.asset "/style.css") (Sample.response 200 "live") Sample.warm_world).
  - vm_compute. reflexivity.
  - reflexivity.
  - reflexivity.
  - reflexivity.
Defined.

Lemma storeFormOffline_adds_one_record_witness :
  pending (exec (storeFormOffline (JString "visit") 1000 "k3x9" 1000 (Fulfilled tt))
             Sample.empty_world)
  ≡ₚ [ {| id := "form-1000-k3x9"; data := JString "visit"; timestamp := 1000;
          form_status := "pending" |} ].
Proof.
  apply (storeFormOffline_adds_one_record (JString "visit") 1000 "k3x9" 1000
           (Fulfilled tt) Sample.empty_world).
  intros g Hg. by apply elem_of_nil in Hg.
Defined.

Lemma storeFormOffline_never_overwrites_witness :
  the_db (exec (storeFormOffline (JString "again") 1000 "k3x9" 2000 (Fulfilled tt))
            Sample.queued_world)
  = the_db Sample.queued_world.
Proof.
  apply (storeFormOffline_never_overwrites (JString "again") 1000 "k3x9" 2000
           (Fulfilled tt) Sample.queued_world
           {| id := "form-1000-k3x9"; data := JString "visit"; timestamp := 1000;
              form_status := "pending" |}).
  - apply list_elem_of_here.
  - reflexivity.
Defined.

Lemma cleanup_later_pass_subsumes_witness :
  the_cache DATA_CACHE_NAME
    (exec (cleanupOldCache Sample.date_parse 691200001)
       (exec (cleanupOldCache Sample.date_parse 604800001) Sample.data_world)) =
  the_cache DATA_CACHE_NAME
    (exec (cleanupOldCache Sample.date_parse 691200001) Sample.data_world).
Proof.
  apply (cleanup_later_pass_subsumes Sample.date_parse 604800001 691200001
           Sample.data_world).
  lia.
Defined.

Lemma cleanup_keeps_unreadable_dates_witness :
  the_cache DATA_CACHE_NAME
    (exec (cleanup_passes Sample.date_parse [604800001; 99999999999999])
       Scenario.odd_dates_world) !! "/api/a" = Some (Sample.dated "yesterday" "[]") /\
  the_cache DATA_CACHE_NAME
    (exec (cleanup_passes Sample.date_parse [604800001; 99999999999999])
       Scenario.odd_dates_world) !! "/api/b" = Some (Sample.dated "" "[]").
Proof.
  split.
  - apply (cleanup_keeps_unreadable_dates Sample.date_parse).
    + vm_compute. reflexivity.
    + reflexivity.
  - apply (cleanup_keeps_unreadable_dates Sample.date_parse).
    + vm_compute. reflexivity.
    + reflexivity.
Defined.

Lemma periodicsync_only_prunes_data_witness :
  exec (periodicsync_listener Sample.date_parse "other-tag" 99999999999999)
       Sample.data_world = Sample.data_world.
Proof.
  apply (periodicsync_only_prunes_data Sample.date_parse "other-tag" 99999999999999
           Sample.data_world).
  discriminate.
Defined.


(** Activation drops the namespace of the old version and keeps the
    current core entry. *)
Lemma activate_keeps_current_namespaces_witness :
  caches (exec activate_listener Scenario.upgraded_world) !! "sh-formu-pwa-v1.0.0" = None /\
  caches (exec activate_listener Scenario.upgraded_world) !! CACHE_NAME
    = Some {[ "/" := Sample.response 200 "new" ]}.
Proof.
  destruct (activate_keeps_current_namespaces Scenario.upgraded_world) as [Hc _].
  split.
  - rewrite Hc. vm_compute. reflexivity.
  - rewrite Hc. vm_compute. reflexivity.
Defined.

(** Three namespaces are counted before the activation. *)
Lemma getCacheInfo_snapshot_witness :
  totalCaches (eval getCacheInfo Scenario.upgraded_world) = 3%nat /\
  exec getCacheInfo Scenario.upgraded_world = Scenario.upgraded_world.
Proof.
  destruct (getCacheInfo_snapshot Scenario.upgraded_world) as (Hw & Htotal & _).
  split; [|exact Hw]. rewrite Htotal. vm_compute. reflexivity.
Defined.
